(** * Live bidding platform: the bid handler of [backend/server.js]

    A shallow embedding of the socket server's in-memory auction store and
    of its ['place-bid'] handler, together with the other entry points that
    read the clock ([connection], the REST routes, the [time-sync] timer).

    Modelling choices.
    - Amounts, identifiers and timestamps are JavaScript numbers.  Every
      seeded price and increment is an integer and timestamps are integer
      milliseconds; on integers below 2^53 the operations the handler uses
      ([+], [<], [>=], [===]) are exact, so they are modelled on [Z].
      What depends on the value of a sum or on the result of a comparison
      of amounts is stated of the module [Js], which embeds the server
      over an arbitrary arithmetic, with IEEE 754 double precision as the
      instance [binary64]: there [+] rounds and an amount may be a
      fraction, an infinity or [NaN].
    - [Date.now()] is an input of the program.  It is modelled by an oracle
      [clock : nat -> Z] giving the value of the k-th call, and the world
      counts the calls made so far.
    - [socket.emit], [io.emit] and [res.json] append to a log of emissions.
    - The handler holds a reference to one object of the [auctionItems]
      array; a reference is the index of the object in the array, and every
      assignment through it is written to that slot of the store.
    - [console.log] and the ['disconnect'] handler, which only logs, are
      not modelled.
    - The browser client ([frontend/src/App.jsx] and the auction card) is
      embedded after the server: the listeners of the socket, the two
      submit handlers and the countdown.  [String.prototype.trim] and
      [parseFloat] are parameters; rendering and the timers that clear a
      message are not modelled. *)

From Stdlib Require Import Floats.SpecFloat.
From stdpp Require Import base decidable option numbers list strings pretty.

Local Open Scope Z_scope.

(** ** Data *)

(** An entry of [auction.bidHistory]. *)
Record Bid := mkBid {
  amount : Z;
  bidder : string;
  timestamp : Z
}.

(** An element of the [auctionItems] array.  [highestBidder] is [null]
    ([None]) until a bid is accepted. *)
Record Auction := mkAuction {
  id : Z;
  title : string;
  description : string;
  image : string;
  currentBid : Z;
  minimumIncrement : Z;
  endTime : Z;
  highestBidder : option string;
  bidHistory : list Bid
}.

(** The argument of a ['place-bid'] event; [bidderName] may be missing. *)
Record PlaceBid := mkPlaceBid {
  auctionId : Z;
  bidAmount : Z;
  bidderName : option string
}.

(** What the server sends. *)
Inductive Payload :=
| initial_sync (serverTime : Z) (auctions : list Auction)
| bid_error (message : string) (auctionId : Z) (minimumBid : option Z)
| auction_update (auctionId currentBid : Z) (highestBidder : option string)
    (bidHistory : list Bid)
| bid_success (auctionId currentBid : Z)
| time_sync (serverTime : Z)
| auctions_json (serverTime : Z) (auctions : list Auction)
| health_json (timestamp : Z).

Inductive Emission :=
| ToSocket (socket_id : string) (p : Payload)
| ToAll (p : Payload)
| HttpReply (p : Payload).

(** The state of the process: the store, the number of [Date.now()] calls
    made so far, and everything emitted so far, oldest first. *)
Record World := mkWorld {
  auctionItems : list Auction;
  reads : nat;
  sent : list Emission
}.

(** ** Field assignments *)

Definition set_currentBid (v : Z) (a : Auction) : Auction :=
  mkAuction (id a) (title a) (description a) (image a) v
    (minimumIncrement a) (endTime a) (highestBidder a) (bidHistory a).

Definition set_highestBidder (v : string) (a : Auction) : Auction :=
  mkAuction (id a) (title a) (description a) (image a) (currentBid a)
    (minimumIncrement a) (endTime a) (Some v) (bidHistory a).

Definition push_bidHistory (b : Bid) (a : Auction) : Auction :=
  mkAuction (id a) (title a) (description a) (image a) (currentBid a)
    (minimumIncrement a) (endTime a) (highestBidder a) (bidHistory a ++ [b]).

(** ** JavaScript operators used by the handler *)

(** Truthiness of a string: only the empty string is falsy. *)
Definition truthy (s : string) : bool :=
  match s with
  | EmptyString => false
  | String _ _ => true
  end.

(** [bidderName || socket.id] *)
Definition or_socket_id (bidderName : option string) (socket_id : string) : string :=
  match bidderName with
  | Some s => if truthy s then s else socket_id
  | None => socket_id
  end.

(** ** The effects *)

Definition M (A : Type) : Type := World -> A * World.

Definition ret {A} (x : A) : M A := fun w => (x, w).

Definition bind {A B} (c : M A) (k : A -> M B) : M B :=
  fun w => let '(x, w') := c w in k x w'.

Notation "'let!' x ':=' c 'in' k" := (bind c (fun x => k))
  (at level 10, x name, c at level 100, k at level 200).
Notation "c1 ';;;' c2" := (bind c1 (fun _ => c2))
  (at level 100, c2 at level 200, right associativity).

Section Server.

(** The value returned by the k-th call of [Date.now()]. *)
Variable clock : nat -> Z.

Definition Date_now : M Z :=
  fun w => (clock (reads w), mkWorld (auctionItems w) (S (reads w)) (sent w)).

Definition emit (e : Emission) : M unit :=
  fun w => (tt, mkWorld (auctionItems w) (reads w) (sent w ++ [e])).

Definition socket_emit (socket_id : string) (p : Payload) : M unit :=
  emit (ToSocket socket_id p).

Definition io_emit (p : Payload) : M unit := emit (ToAll p).

Definition res_json (p : Payload) : M unit := emit (HttpReply p).

Definition get_auctionItems : M (list Auction) :=
  fun w => (auctionItems w, w).

(** [auctionItems.find(item => item.id === auctionId)]: the first matching
    object, with its position in the array as the reference to it. *)
Definition find_auction (auctionId : Z) : M (option (nat * Auction)) :=
  fun w => (list_find (fun item => id item = auctionId) (auctionItems w), w).

(** An assignment through the reference [ref], where [auction] is the
    present content of the object.  Returns the new content. *)
Definition assign (ref : nat) (f : Auction -> Auction) (auction : Auction) : M Auction :=
  fun w => (f auction,
            mkWorld (<[ref := f auction]> (auctionItems w)) (reads w) (sent w)).

(** ** The store at start-up *)

Definition vintage_camera : Auction :=
  mkAuction 1 "Vintage Camera"
    "Classic 35mm film camera in excellent condition"
    "https://images.unsplash.com/photo-1526170375885-4d8ecf77b99f?w=400"
    150 10 (clock 0%nat + 900000) None [].

Definition designer_watch : Auction :=
  mkAuction 2 "Designer Watch"
    "Luxury timepiece with leather strap"
    "https://images.unsplash.com/photo-1523275335684-37898b6baf30?w=400"
    500 10 (clock 1%nat + 1200000) None [].

Definition rare_book_collection : Auction :=
  mkAuction 3 "Rare Book Collection"
    "First edition classics in pristine condition"
    "https://images.unsplash.com/photo-1495446815901-a7297e633e8d?w=400"
    200 10 (clock 2%nat + 1500000) None [].

Definition antique_desk_lamp : Auction :=
  mkAuction 4 "Antique Desk Lamp"
    "Art deco brass lamp from the 1930s"
    "https://images.unsplash.com/photo-1507473885765-e6ed057f782c?w=400"
    80 5 (clock 3%nat + 1800000) None [].

(** The array literal; its four [Date.now()] calls are calls 0 to 3. *)
Definition auctionItems_init : list Auction :=
  [vintage_camera; designer_watch; rare_book_collection; antique_desk_lamp].

Definition boot : World := mkWorld auctionItems_init 4 [].

(** ** The handlers *)

(** [io.on('connection', ...)]: the initial synchronisation. *)
Definition on_connection (socket_id : string) : M unit :=
  let! serverTime := Date_now in
  let! auctions := get_auctionItems in
  socket_emit socket_id (initial_sync serverTime auctions).

(** [socket.on('place-bid', ...)] *)
Definition place_bid (socket_id : string) (data : PlaceBid) : M unit :=
  let auctionId := auctionId data in
  let bidAmount := bidAmount data in
  let bidderName := bidderName data in
  let! found := find_auction auctionId in
  match found with
  | None =>
      socket_emit socket_id (bid_error "Auction not found" auctionId None)
  | Some (ref, auction) =>
      let! now := Date_now in
      if now >=? endTime auction then
        socket_emit socket_id (bid_error "Auction has ended" auctionId None)
      else
        let minimumBid := currentBid auction + minimumIncrement auction in
        if bidAmount <? minimumBid then
          socket_emit socket_id
            (bid_error ("Bid must be at least $" +:+ pretty minimumBid)
               auctionId (Some minimumBid))
        else
          let! auction := assign ref (set_currentBid bidAmount) auction in
          let! auction :=
            assign ref (set_highestBidder (or_socket_id bidderName socket_id)) auction in
          let bidder := or_socket_id bidderName socket_id in
          let! timestamp := Date_now in
          let! auction :=
            assign ref (push_bidHistory (mkBid bidAmount bidder timestamp)) auction in
          io_emit (auction_update auctionId (currentBid auction)
                     (highestBidder auction) (bidHistory auction)) ;;;
          socket_emit socket_id (bid_success auctionId (currentBid auction))
  end.

(** [app.get('/api/auctions')] and its alias [app.get('/api/items')]. *)
Definition api_auctions : M unit :=
  let! serverTime := Date_now in
  let! auctions := get_auctionItems in
  res_json (auctions_json serverTime auctions).

(** [app.get('/health')] *)
Definition health : M unit :=
  let! timestamp := Date_now in
  res_json (health_json timestamp).

(** The body of the [setInterval] timer. *)
Definition time_sync_tick : M unit :=
  let! serverTime := Date_now in
  io_emit (time_sync serverTime).

(** ** The event loop *)

(** What the event loop can dequeue.  Each handler runs to completion
    before the next one starts. *)
Inductive Task :=
| Connection (socket_id : string)
| PlaceBidEvent (socket_id : string) (data : PlaceBid)
| GetAuctions
| GetHealth
| TimerTick.

Definition handle (t : Task) : M unit :=
  match t with
  | Connection socket_id => on_connection socket_id
  | PlaceBidEvent socket_id data => place_bid socket_id data
  | GetAuctions => api_auctions
  | GetHealth => health
  | TimerTick => time_sync_tick
  end.

Definition exec {A} (c : M A) (w : World) : World := snd (c w).

Fixpoint run (ts : list Task) (w : World) : World :=
  match ts with
  | [] => w
  | t :: ts => run ts (exec (handle t) w)
  end.

End Server.

(** ** Outcomes

    The three rejections of the handler under the names of the error
    taxonomy, and what is emitted for an accepted bid. *)

Definition AuctionNotFound (auctionId : Z) : Payload :=
  bid_error "Auction not found" auctionId None.

Definition AuctionEnded (auctionId : Z) : Payload :=
  bid_error "Auction has ended" auctionId None.

Definition BidTooLow (auctionId minimumBid : Z) : Payload :=
  bid_error ("Bid must be at least $" +:+ pretty minimumBid) auctionId (Some minimumBid).

(** The [minimumBid] field of a payload, when it has one. *)
Definition minimumBid_of (p : Payload) : option Z :=
  match p with
  | bid_error _ _ m => m
  | _ => None
  end.

Definition payload_of (e : Emission) : Payload :=
  match e with
  | ToSocket _ p => p
  | ToAll p => p
  | HttpReply p => p
  end.

(** What one run of a handler appends to the log. *)
Definition emitted {A} (c : M A) (w : World) : list Emission :=
  drop (length (sent w)) (sent (exec c w)).

(** The object after the three assignments of an accepted bid, stamped
    with the clock reading [stamp]. *)
Definition applied (socket_id : string) (data : PlaceBid) (stamp : Z) (a : Auction) : Auction :=
  mkAuction (id a) (title a) (description a) (image a) (bidAmount data)
    (minimumIncrement a) (endTime a)
    (Some (or_socket_id (bidderName data) socket_id))
    (bidHistory a ++
       [mkBid (bidAmount data) (or_socket_id (bidderName data) socket_id) stamp]).

(** The emissions of an accepted bid: the broadcast, then the confirmation. *)
Definition Accepted (socket_id : string) (a' : Auction) : list Emission :=
  [ ToAll (auction_update (id a') (currentBid a') (highestBidder a') (bidHistory a'));
    ToSocket socket_id (bid_success (id a') (currentBid a')) ].

(** The lookup of the handler, as a function of the store. *)
Definition lookup_auction (auctionId : Z) (items : list Auction) : option (nat * Auction) :=
  list_find (fun item => id item = auctionId) items.

(** ** Acceptance *)

(** A bid is accepted when the handler answers with the broadcast and the
    ['bid-success'] confirmation. *)
Definition accepted (clock : nat -> Z) (socket_id : string) (data : PlaceBid)
    (w : World) : Prop :=
  exists a', emitted (place_bid clock socket_id data) w = Accepted socket_id a'.

(** ** One run of the handler, case by case *)

(** The four ways one run of the handler can go: what was looked up and
    checked, and what it did to the store, to the clock and to the log. *)
Inductive bid_outcome (clock : nat -> Z) (socket_id : string) (data : PlaceBid)
    (w : World) : Prop :=
| outcome_not_found :
    lookup_auction (auctionId data) (auctionItems w) = None ->
    auctionItems (exec (place_bid clock socket_id data) w) = auctionItems w ->
    reads (exec (place_bid clock socket_id data) w) = reads w ->
    emitted (place_bid clock socket_id data) w =
      [ToSocket socket_id (AuctionNotFound (auctionId data))] ->
    bid_outcome clock socket_id data w
| outcome_ended ref a :
    lookup_auction (auctionId data) (auctionItems w) = Some (ref, a) ->
    endTime a <= clock (reads w) ->
    auctionItems (exec (place_bid clock socket_id data) w) = auctionItems w ->
    reads (exec (place_bid clock socket_id data) w) = S (reads w) ->
    emitted (place_bid clock socket_id data) w =
      [ToSocket socket_id (AuctionEnded (auctionId data))] ->
    bid_outcome clock socket_id data w
| outcome_too_low ref a :
    lookup_auction (auctionId data) (auctionItems w) = Some (ref, a) ->
    clock (reads w) < endTime a ->
    bidAmount data < currentBid a + minimumIncrement a ->
    auctionItems (exec (place_bid clock socket_id data) w) = auctionItems w ->
    reads (exec (place_bid clock socket_id data) w) = S (reads w) ->
    emitted (place_bid clock socket_id data) w =
      [ToSocket socket_id
         (BidTooLow (auctionId data) (currentBid a + minimumIncrement a))] ->
    bid_outcome clock socket_id data w
| outcome_accepted ref a :
    lookup_auction (auctionId data) (auctionItems w) = Some (ref, a) ->
    clock (reads w) < endTime a ->
    currentBid a + minimumIncrement a <= bidAmount data ->
    auctionItems (exec (place_bid clock socket_id data) w) =
      <[ref := applied socket_id data (clock (S (reads w))) a]> (auctionItems w) ->
    reads (exec (place_bid clock socket_id data) w) = S (S (reads w)) ->
    emitted (place_bid clock socket_id data) w =
      Accepted socket_id (applied socket_id data (clock (S (reads w))) a) ->
    bid_outcome clock socket_id data w.

(** ** Reachable states and their invariant *)

(** An auction as created: nobody has bid. *)
Definition fresh (a : Auction) : Prop :=
  highestBidder a = None /\ bidHistory a = [].

Definition seeded (w0 : World) : Prop := Forall fresh (auctionItems w0).

(** The fields that no handler assigns. *)
Definition same_static (a a' : Auction) : Prop :=
  id a' = id a /\ title a' = title a /\ description a' = description a /\
  image a' = image a /\ minimumIncrement a' = minimumIncrement a /\
  endTime a' = endTime a.

(** Successive amounts of a history are at least [inc] apart, starting
    from the seed price. *)
Definition spaced (seed inc : Z) (h : list Bid) : Prop :=
  (forall b, h !! 0%nat = Some b -> seed + inc <= amount b) /\
  (forall k b1 b2, h !! k = Some b1 -> h !! S k = Some b2 ->
     amount b1 + inc <= amount b2).

(** The entry [b] carries the value of call [S k] of [Date.now()], made
    right after call [k] passed the deadline check; both calls were made
    between call number [lo] and call number [hi]. *)
Definition stamped (clock : nat -> Z) (lo hi : nat) (deadline : Z) (b : Bid) : Prop :=
  exists k : nat,
    (lo <= k)%nat /\ (S k < hi)%nat /\ clock k < deadline /\ timestamp b = clock (S k).

(** How the present content [a] of an object relates to its content [a0]
    in the seed store. *)
Record tracks (clock : nat -> Z) (lo hi : nat) (a0 a : Auction) : Prop := mkTracks {
  tracks_static : same_static a0 a;
  tracks_currentBid :
    currentBid a = from_option amount (currentBid a0) (last (bidHistory a));
  tracks_highestBidder :
    highestBidder a = bidder <$> last (bidHistory a);
  tracks_spaced :
    spaced (currentBid a0) (minimumIncrement a0) (bidHistory a);
  tracks_stamped :
    Forall (stamped clock lo hi (endTime a0)) (bidHistory a)
}.

Definition Inv (clock : nat -> Z) (w0 w : World) : Prop :=
  (reads w0 <= reads w)%nat /\
  Forall2 (tracks clock (reads w0) (reads w)) (auctionItems w0) (auctionItems w).

(** Between two states of one object: the unassigned fields are the same,
    and the price has not gone down when the increment is not negative. *)
Definition grows (a a' : Auction) : Prop :=
  same_static a a' /\ (0 <= minimumIncrement a -> currentBid a <= currentBid a').

(** Every stored timestamp is before the deadline of its auction. *)
Definition timestamps_before_endTime (w : World) : Prop :=
  Forall (fun a => Forall (fun b => timestamp b < endTime a) (bidHistory a))
    (auctionItems w).

(** Concrete clocks.  [ticking] advances by one millisecond per call.
    With [at_deadline] the process starts at time 0 and every later call
    returns 900000, the deadline of the first auction.  With [crossing]
    the process starts at time 0, call 4 returns 899999 and call 5
    returns 900000. *)
Definition ticking : nat -> Z := fun k => Z.of_nat k.

Definition at_deadline : nat -> Z :=
  fun k => if (k <? 4)%nat then 0 else 900000.

Definition crossing : nat -> Z :=
  fun k => if (k <? 4)%nat then 0 else 899995 + Z.of_nat k.

(** ** Measures of the store and of the log *)

(** The number of history entries of all auctions together. *)
Definition history_entries (items : list Auction) : nat :=
  sum_list_with (fun a => length (bidHistory a)) items.

Definition is_confirmation (e : Emission) : bool :=
  match e with
  | ToSocket _ (bid_success _ _) => true
  | _ => false
  end.

Definition is_update (e : Emission) : bool :=
  match e with
  | ToAll (auction_update _ _ _ _) => true
  | _ => false
  end.

(** The number of ['bid-success'] confirmations of a log. *)
Definition confirmations (log : list Emission) : nat :=
  sum_list_with (fun e => if is_confirmation e then 1%nat else 0%nat) log.

(** The number of ['auction-update'] broadcasts of a log. *)
Definition updates (log : list Emission) : nat :=
  sum_list_with (fun e => if is_update e then 1%nat else 0%nat) log.

(** Which event goes to whom: the synchronisation, the errors and the
    confirmations to one socket, the updates and the clock to all, the
    JSON bodies to the HTTP client. *)
Definition well_addressed (e : Emission) : bool :=
  match e with
  | ToSocket _ (initial_sync _ _) => true
  | ToSocket _ (bid_error _ _ _) => true
  | ToSocket _ (bid_success _ _) => true
  | ToAll (auction_update _ _ _ _) => true
  | ToAll (time_sync _) => true
  | HttpReply (auctions_json _ _) => true
  | HttpReply (health_json _) => true
  | _ => false
  end.

(** Every update of the log is directly followed by a confirmation with
    the same auction and price, and there is no other confirmation. *)
Fixpoint updates_confirmed (log : list Emission) : bool :=
  match log with
  | [] => true
  | ToAll (auction_update i c _ _) :: rest =>
      match rest with
      | ToSocket _ (bid_success i' c') :: rest' =>
          (i =? i') && (c =? c') && updates_confirmed rest'
      | _ => false
      end
  | ToSocket _ (bid_success _ _) :: _ => false
  | _ :: rest => updates_confirmed rest
  end.

(** A clock that never goes back. *)
Definition monotone (clock : nat -> Z) : Prop :=
  forall i j : nat, (i <= j)%nat -> clock i <= clock j.

(** The timestamps of a history never decrease. *)
Definition stamps_sorted (h : list Bid) : Prop :=
  forall i j b b', (i <= j)%nat -> h !! i = Some b -> h !! j = Some b' ->
    timestamp b <= timestamp b'.

(** ** The browser client: [frontend/src/App.jsx]

    The state of the [App] component.  [app_socket] is the identifier the
    server knows the connection by, once the socket exists.  The fields
    carry the prefix [app_] because [bidderName] already names the field
    of the request.  Events are delivered to a connected client in the
    order the server emitted them. *)
Record App := mkApp {
  app_socket : option string;
  app_auctions : list Auction;
  app_serverTime : Z;
  app_bidderName : string;
  app_connected : bool
}.

(** [a || b] on strings. *)
Definition or_string (a b : string) : string :=
  if truthy a then a else b.

(** The spread [{ ...auction, currentBid, highestBidder }]. *)
Definition with_bid (currentBid : Z) (highestBidder : option string) (auction : Auction) : Auction :=
  mkAuction (id auction) (title auction) (description auction) (image auction)
    currentBid (minimumIncrement auction) (endTime auction) highestBidder
    (bidHistory auction).

(** The listeners registered on the socket.  Nothing listens to
    ['bid-error'] and ['bid-success']. *)
Definition on_event (app : App) (p : Payload) : App :=
  match p with
  | initial_sync serverTime auctions =>
      mkApp (app_socket app) auctions serverTime (app_bidderName app) (app_connected app)
  | auction_update auctionId currentBid highestBidder _ =>
      mkApp (app_socket app)
        ((fun auction =>
            if decide (id auction = auctionId)
            then with_bid currentBid highestBidder auction
            else auction) <$> app_auctions app)
        (app_serverTime app) (app_bidderName app) (app_connected app)
  | time_sync serverTime =>
      mkApp (app_socket app) (app_auctions app) serverTime (app_bidderName app)
        (app_connected app)
  | _ => app
  end.

(** What of the server's log reaches the socket [socket_id]. *)
Definition addressed_to (socket_id : string) (e : Emission) : option Payload :=
  match e with
  | ToSocket s p => if decide (s = socket_id) then Some p else None
  | ToAll p => Some p
  | HttpReply _ => None
  end.

Definition receive (socket_id : string) (log : list Emission) (app : App) : App :=
  fold_left
    (fun app e =>
       match addressed_to socket_id e with
       | Some p => on_event app p
       | None => app
       end)
    log app.

Section Browser.

(** [String.prototype.trim] and [parseFloat] are built in; they are taken
    as they come.  A JavaScript number is an integer or [NaN] ([None]). *)
Variable trim : string -> string.
Variable parseFloat : string -> option Z.

(** The [currentBidder] prop handed to every card. *)
Definition currentBidder (app : App) : string :=
  or_string (trim (app_bidderName app)) "Anonymous".

(** [handlePlaceBid]: the ['place-bid'] event emitted, if any. *)
Definition handlePlaceBid (app : App) (auctionId bidAmount : Z) : option PlaceBid :=
  match app_socket app with
  | None => None
  | Some _ =>
      let bidderNameToUse := or_string (trim (app_bidderName app)) "Anonymous" in
      Some (mkPlaceBid auctionId bidAmount (Some bidderNameToUse))
  end.

(** ** The auction card: [AuctionCard.jsx] *)

Inductive Message := mkMessage (type text : string).

(** The state of one card. *)
Record Card := mkCard {
  card_bidAmount : string;
  card_remainingTime : Z;
  card_message : option Message
}.

(** [updateTimer], run when [auction.endTime] or [serverTime] changes. *)
Definition updateTimer (auction : Auction) (serverTime : Z) : Z :=
  let timeLeft := endTime auction - serverTime in
  Z.max 0 timeLeft.

(** The callback of the one-second interval; [now] is the reading of the
    browser's clock. *)
Definition interval_callback (auction : Auction) (serverTime now : Z) : Z :=
  let serverOffset := serverTime - now in
  let currentServerTime := now + serverOffset in
  let timeLeft := endTime auction - currentServerTime in
  Z.max 0 timeLeft.

Definition isEnded (remainingTime : Z) : bool := remainingTime <=? 0.

(** [auction.highestBidder === currentBidder && !isEnded] *)
Definition isWinning (auction : Auction) (currentBidder : string) (remainingTime : Z) : bool :=
  bool_decide (highestBidder auction = Some currentBidder) && negb (isEnded remainingTime).

(** The truthiness of
    [auction.highestBidder && auction.highestBidder !== currentBidder && !isEnded]. *)
Definition isOutbid (auction : Auction) (currentBidder : string) (remainingTime : Z) : bool :=
  match highestBidder auction with
  | None => false
  | Some h =>
      truthy h && negb (bool_decide (h = currentBidder)) && negb (isEnded remainingTime)
  end.

(** [padString] repeated and cut to [n] characters. *)
Fixpoint pad_fill (n : nat) (padString rest : string) : string :=
  match n with
  | O => ""
  | S n' =>
      match rest with
      | String c rest' => String c (pad_fill n' padString rest')
      | EmptyString =>
          match padString with
          | String c rest' => String c (pad_fill n' padString rest')
          | EmptyString => ""
          end
      end
  end.

(** [s.padStart(targetLength, padString)] *)
Definition padStart (targetLength : nat) (padString s : string) : string :=
  if (targetLength <=? String.length s)%nat then s
  else pad_fill (targetLength - String.length s) padString padString +:+ s.

(** [formatTime]: [Math.floor] of a quotient is [Z.div], [%] is [Z.rem]. *)
Definition formatTime (ms : Z) : string :=
  let totalSeconds := ms / 1000 in
  let minutes := totalSeconds / 60 in
  let seconds := Z.rem totalSeconds 60 in
  pretty minutes +:+ ":" +:+ padStart 2 "0" (pretty seconds).

(** [handleSubmitBid]: the new state of the card and the call of
    [onPlaceBid], if any.  The timers that clear the message are not
    modelled. *)
Definition handleSubmitBid (auction : Auction) (card : Card) : Card * option (Z * Z) :=
  let amount := parseFloat (card_bidAmount card) in
  let rejected_price :=
    (mkCard (card_bidAmount card) (card_remainingTime card)
       (Some (mkMessage "error"
                ("Bid must be higher than $" +:+ pretty (currentBid auction)))),
     None) in
  match amount with
  | None => rejected_price
  | Some amount =>
      if amount <=? currentBid auction then rejected_price
      else if isEnded (card_remainingTime card) then
        (mkCard (card_bidAmount card) (card_remainingTime card)
           (Some (mkMessage "error" "Auction has ended")),
         None)
      else
        (mkCard "" (card_remainingTime card)
           (Some (mkMessage "success" "Bid placed! Waiting for confirmation...")),
         Some (id auction, amount))
  end.

(** A submitted form, with [onPlaceBid] bound to [handlePlaceBid]: what
    reaches the socket. *)
Definition submit (app : App) (auction : Auction) (card : Card) : option PlaceBid :=
  match snd (handleSubmitBid auction card) with
  | Some (auctionId, bidAmount) => handlePlaceBid app auctionId bidAmount
  | None => None
  end.

End Browser.

(** [trim] on text whose white space is ASCII. *)
Fixpoint trim_start (s : string) : string :=
  match s with
  | String c s' => if Ascii.is_space c then trim_start s' else s
  | EmptyString => EmptyString
  end.

Definition trim_ascii (s : string) : string :=
  String.rev (trim_start (String.rev (trim_start s))).

(** The number a two-character decimal text stands for. *)
Definition two_digits_value (s : string) : option Z :=
  match s with
  | String a (String b EmptyString) =>
      match Ascii.is_nat a, Ascii.is_nat b with
      | Some x, Some y => Some (Z.of_nat (10 * x + y))
      | _, _ => None
      end
  | _ => None
  end.

(** What a run of the event loop appends to the log. *)
Definition emitted_by_run (clock : nat -> Z) (ts : list Task) (w : World) : list Emission :=
  drop (length (sent w)) (sent (run clock ts w)).

(** The client's copy [c] shows the server's object [s]: the same fields,
    up to the history. *)
Definition shows (c s : Auction) : Prop :=
  same_static s c /\ currentBid c = currentBid s /\ highestBidder c = highestBidder s.

(** ** The handler over the arithmetic of JavaScript numbers

    The development above computes amounts on integers, which is what the
    handler does as long as every sum it forms is an integer of magnitude
    at most 2^53.  Amounts are IEEE 754 doubles: [+] rounds, a bid may be
    a fraction, an infinity or [NaN].  The module [Js] embeds the server a
    second time with the numbers and the three operations the handler
    applies to amounts as a parameter; what is proved of it holds of
    double arithmetic in particular.  Identifiers and clock readings stay
    on [Z]. *)
Module Js.

(** The numbers, [literal] for the numeric literals of the source,
    [add a b] for [a + b], [lt a b] for [a < b], and [toString a] for the
    text of [a] in a template literal. *)
Record Arith := mkArith {
  number : Type;
  literal : Z -> number;
  add : number -> number -> number;
  lt : number -> number -> bool;
  toString : number -> string
}.

Section Arithmetic.

Variable N : Arith.

Record Bid := mkBid {
  amount : number N;
  bidder : string;
  timestamp : Z
}.

Record Auction := mkAuction {
  id : Z;
  title : string;
  description : string;
  image : string;
  currentBid : number N;
  minimumIncrement : number N;
  endTime : Z;
  highestBidder : option string;
  bidHistory : list Bid
}.

Record PlaceBid := mkPlaceBid {
  auctionId : Z;
  bidAmount : number N;
  bidderName : option string
}.

Inductive Payload :=
| initial_sync (serverTime : Z) (auctions : list Auction)
| bid_error (message : string) (auctionId : Z) (minimumBid : option (number N))
| auction_update (auctionId : Z) (currentBid : number N)
    (highestBidder : option string) (bidHistory : list Bid)
| bid_success (auctionId : Z) (currentBid : number N)
| time_sync (serverTime : Z)
| auctions_json (serverTime : Z) (auctions : list Auction)
| health_json (timestamp : Z).

Inductive Emission :=
| ToSocket (socket_id : string) (p : Payload)
| ToAll (p : Payload)
| HttpReply (p : Payload).

Record World := mkWorld {
  auctionItems : list Auction;
  reads : nat;
  sent : list Emission
}.

Definition set_currentBid (v : number N) (a : Auction) : Auction :=
  mkAuction (id a) (title a) (description a) (image a) v
    (minimumIncrement a) (endTime a) (highestBidder a) (bidHistory a).

Definition set_highestBidder (v : string) (a : Auction) : Auction :=
  mkAuction (id a) (title a) (description a) (image a) (currentBid a)
    (minimumIncrement a) (endTime a) (Some v) (bidHistory a).

Definition push_bidHistory (b : Bid) (a : Auction) : Auction :=
  mkAuction (id a) (title a) (description a) (image a) (currentBid a)
    (minimumIncrement a) (endTime a) (highestBidder a) (bidHistory a ++ [b]).

Definition M (A : Type) : Type := World -> A * World.

Definition bind {A B} (c : M A) (k : A -> M B) : M B :=
  fun w => let '(x, w') := c w in k x w'.

Local Notation "'do!' x ':=' c 'in' k" := (bind c (fun x => k))
  (at level 10, x name, c at level 100, k at level 200).
Local Notation "c1 ';;!' c2" := (bind c1 (fun _ => c2))
  (at level 100, c2 at level 200, right associativity).

Variable clock : nat -> Z.

Definition Date_now : M Z :=
  fun w => (clock (reads w), mkWorld (auctionItems w) (S (reads w)) (sent w)).

Definition emit (e : Emission) : M unit :=
  fun w => (tt, mkWorld (auctionItems w) (reads w) (sent w ++ [e])).

Definition socket_emit (socket_id : string) (p : Payload) : M unit :=
  emit (ToSocket socket_id p).

Definition io_emit (p : Payload) : M unit := emit (ToAll p).

Definition res_json (p : Payload) : M unit := emit (HttpReply p).

Definition get_auctionItems : M (list Auction) :=
  fun w => (auctionItems w, w).

Definition find_auction (auctionId : Z) : M (option (nat * Auction)) :=
  fun w => (list_find (fun item => id item = auctionId) (auctionItems w), w).

Definition assign (ref : nat) (f : Auction -> Auction) (auction : Auction) : M Auction :=
  fun w => (f auction,
            mkWorld (<[ref := f auction]> (auctionItems w)) (reads w) (sent w)).

Definition vintage_camera : Auction :=
  mkAuction 1 "Vintage Camera"
    "Classic 35mm film camera in excellent condition"
    "https://images.unsplash.com/photo-1526170375885-4d8ecf77b99f?w=400"
    (literal N 150) (literal N 10) (clock 0%nat + 900000) None [].

Definition designer_watch : Auction :=
  mkAuction 2 "Designer Watch"
    "Luxury timepiece with leather strap"
    "https://images.unsplash.com/photo-1523275335684-37898b6baf30?w=400"
    (literal N 500) (literal N 10) (clock 1%nat + 1200000) None [].

Definition rare_book_collection : Auction :=
  mkAuction 3 "Rare Book Collection"
    "First edition classics in pristine condition"
    "https://images.unsplash.com/photo-1495446815901-a7297e633e8d?w=400"
    (literal N 200) (literal N 10) (clock 2%nat + 1500000) None [].

Definition antique_desk_lamp : Auction :=
  mkAuction 4 "Antique Desk Lamp"
    "Art deco brass lamp from the 1930s"
    "https://images.unsplash.com/photo-1507473885765-e6ed057f782c?w=400"
    (literal N 80) (literal N 5) (clock 3%nat + 1800000) None [].

Definition auctionItems_init : list Auction :=
  [vintage_camera; designer_watch; rare_book_collection; antique_desk_lamp].

Definition boot : World := mkWorld auctionItems_init 4 [].

Definition on_connection (socket_id : string) : M unit :=
  do! serverTime := Date_now in
  do! auctions := get_auctionItems in
  socket_emit socket_id (initial_sync serverTime auctions).

(** [socket.on('place-bid', ...)] *)
Definition place_bid (socket_id : string) (data : PlaceBid) : M unit :=
  let auctionId := auctionId data in
  let bidAmount := bidAmount data in
  let bidderName := bidderName data in
  do! found := find_auction auctionId in
  match found with
  | None =>
      socket_emit socket_id (bid_error "Auction not found" auctionId None)
  | Some (ref, auction) =>
      do! now := Date_now in
      if now >=? endTime auction then
        socket_emit socket_id (bid_error "Auction has ended" auctionId None)
      else
        let minimumBid := add N (currentBid auction) (minimumIncrement auction) in
        if lt N bidAmount minimumBid then
          socket_emit socket_id
            (bid_error ("Bid must be at least $" +:+ toString N minimumBid)
               auctionId (Some minimumBid))
        else
          do! auction := assign ref (set_currentBid bidAmount) auction in
          do! auction :=
            assign ref (set_highestBidder (or_socket_id bidderName socket_id)) auction in
          let bidder := or_socket_id bidderName socket_id in
          do! timestamp := Date_now in
          do! auction :=
            assign ref (push_bidHistory (mkBid bidAmount bidder timestamp)) auction in
          io_emit (auction_update auctionId (currentBid auction)
                     (highestBidder auction) (bidHistory auction)) ;;!
          socket_emit socket_id (bid_success auctionId (currentBid auction))
  end.

Definition api_auctions : M unit :=
  do! serverTime := Date_now in
  do! auctions := get_auctionItems in
  res_json (auctions_json serverTime auctions).

Definition health : M unit :=
  do! timestamp := Date_now in
  res_json (health_json timestamp).

Definition time_sync_tick : M unit :=
  do! serverTime := Date_now in
  io_emit (time_sync serverTime).

Inductive Task :=
| Connection (socket_id : string)
| PlaceBidEvent (socket_id : string) (data : PlaceBid)
| GetAuctions
| GetHealth
| TimerTick.

Definition handle (t : Task) : M unit :=
  match t with
  | Connection socket_id => on_connection socket_id
  | PlaceBidEvent socket_id data => place_bid socket_id data
  | GetAuctions => api_auctions
  | GetHealth => health
  | TimerTick => time_sync_tick
  end.

Definition exec {A} (c : M A) (w : World) : World := snd (c w).

Fixpoint run (ts : list Task) (w : World) : World :=
  match ts with
  | [] => w
  | t :: ts => run ts (exec (handle t) w)
  end.

(** The three rejections and the emissions of an accepted bid. *)
Definition AuctionNotFound (auctionId : Z) : Payload :=
  bid_error "Auction not found" auctionId None.

Definition AuctionEnded (auctionId : Z) : Payload :=
  bid_error "Auction has ended" auctionId None.

Definition BidTooLow (auctionId : Z) (minimumBid : number N) : Payload :=
  bid_error ("Bid must be at least $" +:+ toString N minimumBid) auctionId
    (Some minimumBid).

Definition minimumBid_of (p : Payload) : option (number N) :=
  match p with
  | bid_error _ _ m => m
  | _ => None
  end.

Definition payload_of (e : Emission) : Payload :=
  match e with
  | ToSocket _ p => p
  | ToAll p => p
  | HttpReply p => p
  end.

Definition emitted {A} (c : M A) (w : World) : list Emission :=
  drop (length (sent w)) (sent (exec c w)).

Definition applied (socket_id : string) (data : PlaceBid) (stamp : Z) (a : Auction) : Auction :=
  mkAuction (id a) (title a) (description a) (image a) (bidAmount data)
    (minimumIncrement a) (endTime a)
    (Some (or_socket_id (bidderName data) socket_id))
    (bidHistory a ++
       [mkBid (bidAmount data) (or_socket_id (bidderName data) socket_id) stamp]).

Definition Accepted (socket_id : string) (a' : Auction) : list Emission :=
  [ ToAll (auction_update (id a') (currentBid a') (highestBidder a') (bidHistory a'));
    ToSocket socket_id (bid_success (id a') (currentBid a')) ].

Definition lookup_auction (auctionId : Z) (items : list Auction) : option (nat * Auction) :=
  list_find (fun item => id item = auctionId) items.

Definition accepted (socket_id : string) (data : PlaceBid) (w : World) : Prop :=
  exists a', emitted (place_bid socket_id data) w = Accepted socket_id a'.

(** The four ways one run of the handler can go. *)
Inductive bid_outcome (socket_id : string) (data : PlaceBid) (w : World) : Prop :=
| outcome_not_found :
    lookup_auction (auctionId data) (auctionItems w) = None ->
    auctionItems (exec (place_bid socket_id data) w) = auctionItems w ->
    reads (exec (place_bid socket_id data) w) = reads w ->
    emitted (place_bid socket_id data) w =
      [ToSocket socket_id (AuctionNotFound (auctionId data))] ->
    bid_outcome socket_id data w
| outcome_ended ref a :
    lookup_auction (auctionId data) (auctionItems w) = Some (ref, a) ->
    endTime a <= clock (reads w) ->
    auctionItems (exec (place_bid socket_id data) w) = auctionItems w ->
    reads (exec (place_bid socket_id data) w) = S (reads w) ->
    emitted (place_bid socket_id data) w =
      [ToSocket socket_id (AuctionEnded (auctionId data))] ->
    bid_outcome socket_id data w
| outcome_too_low ref a :
    lookup_auction (auctionId data) (auctionItems w) = Some (ref, a) ->
    clock (reads w) < endTime a ->
    lt N (bidAmount data) (add N (currentBid a) (minimumIncrement a)) = true ->
    auctionItems (exec (place_bid socket_id data) w) = auctionItems w ->
    reads (exec (place_bid socket_id data) w) = S (reads w) ->
    emitted (place_bid socket_id data) w =
      [ToSocket socket_id
         (BidTooLow (auctionId data) (add N (currentBid a) (minimumIncrement a)))] ->
    bid_outcome socket_id data w
| outcome_accepted ref a :
    lookup_auction (auctionId data) (auctionItems w) = Some (ref, a) ->
    clock (reads w) < endTime a ->
    lt N (bidAmount data) (add N (currentBid a) (minimumIncrement a)) = false ->
    auctionItems (exec (place_bid socket_id data) w) =
      <[ref := applied socket_id data (clock (S (reads w))) a]> (auctionItems w) ->
    reads (exec (place_bid socket_id data) w) = S (S (reads w)) ->
    emitted (place_bid socket_id data) w =
      Accepted socket_id (applied socket_id data (clock (S (reads w))) a) ->
    bid_outcome socket_id data w.

(** An auction as created, and a store of such. *)
Definition fresh (a : Auction) : Prop :=
  highestBidder a = None /\ bidHistory a = [].

Definition seeded (w0 : World) : Prop := Forall fresh (auctionItems w0).

Definition same_static (a a' : Auction) : Prop :=
  id a' = id a /\ title a' = title a /\ description a' = description a /\
  image a' = image a /\ minimumIncrement a' = minimumIncrement a /\
  endTime a' = endTime a.

(** Every entry of a history passed the price check against the entry
    before it, the first one against the seed price: it is not less than
    the sum the handler computed. *)
Definition checked (seed inc : number N) (h : list Bid) : Prop :=
  (forall b, h !! 0%nat = Some b -> lt N (amount b) (add N seed inc) = false) /\
  (forall k b1 b2, h !! k = Some b1 -> h !! S k = Some b2 ->
     lt N (amount b2) (add N (amount b1) inc) = false).

Record tracks (a0 a : Auction) : Prop := mkTracks {
  tracks_static : same_static a0 a;
  tracks_currentBid :
    currentBid a = from_option amount (currentBid a0) (last (bidHistory a));
  tracks_highestBidder :
    highestBidder a = bidder <$> last (bidHistory a);
  tracks_checked :
    checked (currentBid a0) (minimumIncrement a0) (bidHistory a)
}.

(** What makes a price never go down, on the numbers of a set [D] that
    holds every price of the store: [x] is not below [x], not being below
    is transitive, and a number that is not below the sum the handler
    computes from a price and the increment of an auction is not below
    that price. *)
Definition never_lowers (D : number N -> Prop) (items : list Auction) : Prop :=
  (forall x, D x -> lt N x x = false) /\
  (forall x y z, D x -> D y -> D z ->
     lt N y x = false -> lt N z y = false -> lt N z x = false) /\
  Forall
    (fun a =>
       D (currentBid a) /\
       forall c z, D c -> D z ->
         lt N z (add N c (minimumIncrement a)) = false -> lt N z c = false)
    items.

(** The bids of a run carry amounts of [D]. *)
Definition amounts_in (D : number N -> Prop) (ts : list Task) : Prop :=
  Forall
    (fun t => match t with
              | PlaceBidEvent _ data => D (bidAmount data)
              | _ => True
              end)
    ts.

End Arithmetic.

Arguments mkBid {N} _ _ _.
Arguments amount {N} _.
Arguments bidder {N} _.
Arguments timestamp {N} _.
Arguments mkAuction {N} _ _ _ _ _ _ _ _ _.
Arguments id {N} _.
Arguments title {N} _.
Arguments description {N} _.
Arguments image {N} _.
Arguments currentBid {N} _.
Arguments minimumIncrement {N} _.
Arguments endTime {N} _.
Arguments highestBidder {N} _.
Arguments bidHistory {N} _.
Arguments mkPlaceBid {N} _ _ _.
Arguments auctionId {N} _.
Arguments bidAmount {N} _.
Arguments bidderName {N} _.
Arguments initial_sync {N} _ _.
Arguments bid_error {N} _ _ _.
Arguments auction_update {N} _ _ _ _.
Arguments bid_success {N} _ _.
Arguments time_sync {N} _.
Arguments auctions_json {N} _ _.
Arguments health_json {N} _.
Arguments ToSocket {N} _ _.
Arguments ToAll {N} _.
Arguments HttpReply {N} _.
Arguments mkWorld {N} _ _ _.
Arguments auctionItems {N} _.
Arguments reads {N} _.
Arguments sent {N} _.
Arguments Connection {N} _.
Arguments PlaceBidEvent {N} _ _.
Arguments GetAuctions {N}.
Arguments GetHealth {N}.
Arguments TimerTick {N}.
Arguments place_bid {N} _ _ _ _.
Arguments on_connection {N} _ _ _.
Arguments handle {N} _ _ _.
Arguments exec {N A} _ _.
Arguments run {N} _ _ _.
Arguments emitted {N A} _ _.
Arguments applied {N} _ _ _ _.
Arguments Accepted {N} _ _.
Arguments lookup_auction {N} _ _.
Arguments accepted {N} _ _ _ _.
Arguments AuctionNotFound {N} _.
Arguments AuctionEnded {N} _.
Arguments BidTooLow {N} _ _.
Arguments minimumBid_of {N} _.
Arguments payload_of {N} _.
Arguments fresh {N} _.
Arguments seeded {N} _.
Arguments same_static {N} _ _.
Arguments checked {N} _ _ _.
Arguments tracks {N} _ _.
Arguments never_lowers {N} _ _.
Arguments amounts_in {N} _ _.
Arguments bid_outcome {N} _ _ _ _.

End Js.

(** Exact integer arithmetic, the arithmetic of the development above. *)
Definition exact_integers : Js.Arith :=
  Js.mkArith Z (fun z => z) Z.add Z.ltb pretty.

(** Double precision: 53 bits of precision, exponents up to 1024, sums
    rounded to nearest, ties to even; [<] is false on [NaN].  The printer
    is a parameter. *)
Definition binary64 (show : spec_float -> string) : Js.Arith :=
  Js.mkArith spec_float
    (fun z => binary_normalize 53 1024 z 0 false)
    (SFadd 53 1024) SFltb show.

(** The double nearest to [m * 2^e]: [dyadic 319 (-1)] is 159.5. *)
Definition dyadic (m e : Z) : spec_float := binary_normalize 53 1024 m e false.

(** The integer a double stands for, when it stands for one. *)
Definition integer_value (x : spec_float) : option Z :=
  match x with
  | S754_zero _ => Some 0
  | S754_finite s m e =>
      let z := if s then Z.neg m else Z.pos m in
      if 0 <=? e then Some (z * 2 ^ e)
      else if (z mod 2 ^ (- e) =? 0) then Some (z / 2 ^ (- e)) else None
  | _ => None
  end.

(** [Number::toString] on the numbers it writes without an exponent and
    without a fraction: the integers below 10^21 in magnitude, both zeros,
    and the three special values.  [digits] stands for the
    shortest-digits algorithm that writes all the others. *)
Definition Number_toString (digits : spec_float -> string) (x : spec_float) : string :=
  match x with
  | S754_nan => "NaN"
  | S754_infinity false => "Infinity"
  | S754_infinity true => "-Infinity"
  | _ =>
      match integer_value x with
      | Some z => if Z.abs z <? 10 ^ 21 then pretty z else digits x
      | None => digits x
      end
  end.

(** The doubles of the examples, which print integers only. *)
Definition doubles : Js.Arith := binary64 (Number_toString (fun _ => "")).

(** The claim read with exact sums: each entry is at least the entry
    before it plus the increment. *)
Definition exactly_spaced (inc : spec_float) (h : list spec_float) : Prop :=
  forall k x y i u v,
    h !! k = Some x -> h !! S k = Some y ->
    integer_value inc = Some i -> integer_value x = Some u ->
    integer_value y = Some v ->
    u + i <= v.

(** A blank name: nothing but white space. *)
Fixpoint blank (s : string) : bool :=
  match s with
  | EmptyString => true
  | String c s' => Ascii.is_space c && blank s'
  end.

(** ** The integer development as an instance

    The values of the development on [Z], read as values of the server
    over [exact_integers]. *)

Definition as_js_bid (b : Bid) : Js.Bid exact_integers :=
  Js.mkBid (N:=exact_integers) (amount b) (bidder b) (timestamp b).

Definition as_js_auction (a : Auction) : Js.Auction exact_integers :=
  Js.mkAuction (N:=exact_integers) (id a) (title a) (description a) (image a)
    (currentBid a) (minimumIncrement a) (endTime a) (highestBidder a)
    (as_js_bid <$> bidHistory a).

Definition as_js_request (data : PlaceBid) : Js.PlaceBid exact_integers :=
  Js.mkPlaceBid (N:=exact_integers) (auctionId data) (bidAmount data) (bidderName data).

Definition as_js_payload (p : Payload) : Js.Payload exact_integers :=
  match p with
  | initial_sync serverTime auctions =>
      Js.initial_sync serverTime (as_js_auction <$> auctions)
  | bid_error message auctionId minimumBid =>
      Js.bid_error (N:=exact_integers) message auctionId minimumBid
  | auction_update auctionId currentBid highestBidder bidHistory =>
      Js.auction_update (N:=exact_integers) auctionId currentBid highestBidder
        (as_js_bid <$> bidHistory)
  | bid_success auctionId currentBid =>
      Js.bid_success (N:=exact_integers) auctionId currentBid
  | time_sync serverTime => Js.time_sync serverTime
  | auctions_json serverTime auctions =>
      Js.auctions_json serverTime (as_js_auction <$> auctions)
  | health_json timestamp => Js.health_json timestamp
  end.

Definition as_js_emission (e : Emission) : Js.Emission exact_integers :=
  match e with
  | ToSocket socket_id p => Js.ToSocket socket_id (as_js_payload p)
  | ToAll p => Js.ToAll (as_js_payload p)
  | HttpReply p => Js.HttpReply (as_js_payload p)
  end.

Definition as_js_world (w : World) : Js.World exact_integers :=
  Js.mkWorld (as_js_auction <$> auctionItems w) (reads w) (as_js_emission <$> sent w).

Definition as_js_task (t : Task) : Js.Task exact_integers :=
  match t with
  | Connection socket_id => Js.Connection socket_id
  | PlaceBidEvent socket_id data => Js.PlaceBidEvent socket_id (as_js_request data)
  | GetAuctions => Js.GetAuctions
  | GetHealth => Js.GetHealth
  | TimerTick => Js.TimerTick
  end.

(** * Lemmas *)

(** ** The four branches of the handler *)

Section Steps.

Variable clock : nat -> Z.
Variables (socket_id : string) (data : PlaceBid) (w : World).

Lemma place_bid_not_found :
  lookup_auction (auctionId data) (auctionItems w) = None ->
  place_bid clock socket_id data w =
    (tt, mkWorld (auctionItems w) (reads w)
           (sent w ++ [ToSocket socket_id (AuctionNotFound (auctionId data))])).
Proof.
  intros Hf. unfold place_bid, bind, find_auction, lookup_auction in *.
  now rewrite Hf.
Qed.

Lemma place_bid_ended ref a :
  lookup_auction (auctionId data) (auctionItems w) = Some (ref, a) ->
  endTime a <= clock (reads w) ->
  place_bid clock socket_id data w =
    (tt, mkWorld (auctionItems w) (S (reads w))
           (sent w ++ [ToSocket socket_id (AuctionEnded (auctionId data))])).
Proof.
  intros Hf Hend. unfold place_bid, bind, find_auction, lookup_auction in *.
  rewrite Hf. cbn.
  destruct (Z.geb_spec (clock (reads w)) (endTime a)) as [_|Hlt]; [done|lia].
Qed.

Lemma place_bid_too_low ref a :
  lookup_auction (auctionId data) (auctionItems w) = Some (ref, a) ->
  clock (reads w) < endTime a ->
  bidAmount data < currentBid a + minimumIncrement a ->
  place_bid clock socket_id data w =
    (tt, mkWorld (auctionItems w) (S (reads w))
           (sent w ++ [ToSocket socket_id
                         (BidTooLow (auctionId data)
                            (currentBid a + minimumIncrement a))])).
Proof.
  intros Hf Hopen Hlow. unfold place_bid, bind, find_auction, lookup_auction in *.
  rewrite Hf. cbn.
  destruct (Z.geb_spec (clock (reads w)) (endTime a)) as [Hge|_]; [lia|].
  destruct (Z.ltb_spec (bidAmount data) (currentBid a + minimumIncrement a))
    as [_|Hge]; [done|lia].
Qed.

Lemma place_bid_accepted ref a :
  lookup_auction (auctionId data) (auctionItems w) = Some (ref, a) ->
  clock (reads w) < endTime a ->
  currentBid a + minimumIncrement a <= bidAmount data ->
  place_bid clock socket_id data w =
    (tt, mkWorld
           (<[ref := applied socket_id data (clock (S (reads w))) a]> (auctionItems w))
           (S (S (reads w)))
           (sent w ++ Accepted socket_id
                        (applied socket_id data (clock (S (reads w))) a))).
Proof.
  intros Hf Hopen Hok. pose proof Hf as Hf'.
  unfold place_bid, bind, find_auction, lookup_auction in *.
  rewrite Hf. cbn.
  destruct (Z.geb_spec (clock (reads w)) (endTime a)) as [Hge|_]; [lia|].
  destruct (Z.ltb_spec (bidAmount data) (currentBid a + minimumIncrement a))
    as [Hlt|_]; [lia|].
  cbn. rewrite !list_insert_insert_eq.
  apply list_find_Some in Hf' as (_ & Hid & _).
  unfold socket_emit, emit, applied, Accepted. cbn.
  rewrite <- Hid, <- app_assoc. reflexivity.
Qed.

End Steps.

Lemma emitted_app {A} (c : M A) (w : World) (out : list Emission) :
  sent (exec c w) = sent w ++ out -> emitted c w = out.
Proof. unfold emitted. intros ->. apply drop_app_length. Qed.

Lemma place_bid_outcome clock socket_id data w :
  bid_outcome clock socket_id data w.
Proof.
  destruct (lookup_auction (auctionId data) (auctionItems w)) as [[ref a]|] eqn:Hf.
  - destruct (Z_lt_le_dec (clock (reads w)) (endTime a)) as [Hopen|Hend].
    + destruct (Z_lt_le_dec (bidAmount data) (currentBid a + minimumIncrement a))
        as [Hlow|Hok].
      * eapply outcome_too_low; eauto; try apply emitted_app; unfold exec;
          now rewrite (place_bid_too_low _ _ _ _ _ _ Hf Hopen Hlow).
      * eapply outcome_accepted; eauto; try apply emitted_app; unfold exec;
          now rewrite (place_bid_accepted _ _ _ _ _ _ Hf Hopen Hok).
    + eapply outcome_ended; eauto; try apply emitted_app; unfold exec;
        now rewrite (place_bid_ended _ _ _ _ _ _ Hf Hend).
  - apply outcome_not_found; auto; try apply emitted_app; unfold exec;
      now rewrite (place_bid_not_found _ _ _ _ Hf).
Qed.

(** The lookup returns an element of the store that carries the
    requested identifier. *)
Lemma lookup_auction_Some auctionId items ref a :
  lookup_auction auctionId items = Some (ref, a) ->
  items !! ref = Some a /\ id a = auctionId.
Proof. intros (? & ? & _)%list_find_Some. auto. Qed.

Lemma lookup_auction_None auctionId items :
  lookup_auction auctionId items = None <->
  Forall (fun a => id a <> auctionId) items.
Proof. apply list_find_None. Qed.

Ltac outcome_cases clock sid d w :=
  destruct (place_bid_outcome clock sid d w)
    as [Hf Hi Hn He
       |ref' a' Hf Hend Hi Hn He
       |ref' a' Hf Hopen Hlow Hi Hn He
       |ref' a' Hf Hopen Hok Hi Hn He].

Ltac unfold_outcomes :=
  unfold Accepted, AuctionNotFound, AuctionEnded, BidTooLow in *.

(** Acceptance is decided by the lookup, the deadline check and the price
    check, in this order. *)
Lemma accepted_iff clock socket_id data w :
  accepted clock socket_id data w <->
  exists ref a,
    lookup_auction (auctionId data) (auctionItems w) = Some (ref, a) /\
    clock (reads w) < endTime a /\
    currentBid a + minimumIncrement a <= bidAmount data.
Proof.
  unfold accepted. outcome_cases clock socket_id data w; rewrite He; split.
  all: try (intros [x Hx]; unfold_outcomes; discriminate).
  all: try (intros (r & b & Hf' & ? & ?); simplify_eq; lia).
  - intros _. eauto.
  - intros _. eauto.
Qed.

(** Replacing the looked-up object by one with the same identifier does
    not move the lookup. *)
Lemma lookup_auction_insert auctionId items ref a a' :
  lookup_auction auctionId items = Some (ref, a) ->
  id a' = auctionId ->
  lookup_auction auctionId (<[ref := a']> items) = Some (ref, a').
Proof.
  unfold lookup_auction. intros (Hlk & Hid & Hmin)%list_find_Some Hid'.
  apply list_find_Some. split_and!.
  - apply list_lookup_insert_eq. now apply lookup_lt_Some in Hlk.
  - exact Hid'.
  - intros j y Hj Hlt. rewrite list_lookup_insert_ne in Hj by lia. eauto.
Qed.

(** ** What an accepted bid leaves behind *)

Lemma place_bid_accept clock socket_id data w ref a :
  lookup_auction (auctionId data) (auctionItems w) = Some (ref, a) ->
  clock (reads w) < endTime a ->
  currentBid a + minimumIncrement a <= bidAmount data ->
  auctionItems (exec (place_bid clock socket_id data) w) =
    <[ref := applied socket_id data (clock (S (reads w))) a]> (auctionItems w) /\
  reads (exec (place_bid clock socket_id data) w) = S (S (reads w)) /\
  emitted (place_bid clock socket_id data) w =
    Accepted socket_id (applied socket_id data (clock (S (reads w))) a) /\
  lookup_auction (auctionId data) (auctionItems (exec (place_bid clock socket_id data) w)) =
    Some (ref, applied socket_id data (clock (S (reads w))) a).
Proof.
  intros Hlk Ho Hk.
  outcome_cases clock socket_id data w; simplify_eq; try lia.
  split_and!; auto. rewrite Hi.
  apply (lookup_auction_insert _ _ _ _ _ Hlk).
  apply lookup_auction_Some in Hlk as [_ Hid]. exact Hid.
Qed.

Lemma accepted_inv clock socket_id data w :
  accepted clock socket_id data w ->
  exists ref a,
    lookup_auction (auctionId data) (auctionItems w) = Some (ref, a) /\
    clock (reads w) < endTime a /\
    currentBid a + minimumIncrement a <= bidAmount data /\
    auctionItems (exec (place_bid clock socket_id data) w) =
      <[ref := applied socket_id data (clock (S (reads w))) a]> (auctionItems w) /\
    lookup_auction (auctionId data)
      (auctionItems (exec (place_bid clock socket_id data) w)) =
      Some (ref, applied socket_id data (clock (S (reads w))) a).
Proof.
  intros (ref & a & Hlk & Ho & Hk)%accepted_iff.
  destruct (place_bid_accept clock socket_id data w ref a Hlk Ho Hk) as (? & ? & ? & ?).
  exists ref, a. auto.
Qed.

Lemma not_accepted_store clock socket_id data w :
  ~ accepted clock socket_id data w ->
  auctionItems (exec (place_bid clock socket_id data) w) = auctionItems w.
Proof.
  intros Hna. outcome_cases clock socket_id data w; auto.
  destruct Hna. apply accepted_iff. eauto.
Qed.

(** ** The invariant is kept *)

Section Invariant.

Variable clock : nat -> Z.

Lemma same_static_refl a : same_static a a.
Proof. now repeat split. Qed.

Lemma same_static_trans a b c : same_static a b -> same_static b c -> same_static a c.
Proof. unfold same_static. intuition congruence. Qed.

Lemma same_static_applied socket_id data stamp a :
  same_static a (applied socket_id data stamp a).
Proof. now repeat split. Qed.

Lemma stamped_mono lo hi hi' deadline b :
  (hi <= hi')%nat -> stamped clock lo hi deadline b -> stamped clock lo hi' deadline b.
Proof. intros Hle (k & ? & ? & ? & ?). exists k. repeat split; auto; lia. Qed.

Lemma tracks_fresh lo hi a0 : fresh a0 -> tracks clock lo hi a0 a0.
Proof.
  intros [Hb Hh]. split; rewrite ?Hh, ?Hb; cbn; auto using same_static_refl.
  split; intros *; rewrite ?lookup_nil; discriminate.
Qed.

Lemma tracks_mono lo hi hi' a0 a :
  (hi <= hi')%nat -> tracks clock lo hi a0 a -> tracks clock lo hi' a0 a.
Proof.
  intros Hle [Hs Hc Hb Hsp Hst]. split; auto.
  eapply Forall_impl; [exact Hst|]. intros b. now apply stamped_mono.
Qed.

(** Appending an entry that clears the price check keeps a history spaced. *)
Lemma spaced_snoc seed inc h b :
  spaced seed inc h ->
  from_option amount seed (last h) + inc <= amount b ->
  spaced seed inc (h ++ [b]).
Proof.
  intros [H0 Hk] Hb. split.
  - intros b'. destruct h as [|b0 h]; cbn.
    + intros [= <-]. exact Hb.
    + intros [= <-]. now apply H0.
  - intros k b1 b2 H1 H2.
    destruct (decide (S k < length h)%nat) as [Hlt|Hge].
    + rewrite lookup_app_l in H1, H2 by lia. eauto.
    + assert (S k = length h) as Hk'.
      { apply lookup_lt_Some in H2. rewrite length_app in H2. cbn in H2. lia. }
      rewrite lookup_app_l in H1 by lia.
      rewrite lookup_app_r in H2 by lia.
      rewrite Hk', Nat.sub_diag in H2. injection H2 as <-.
      assert (last h = Some b1) as Hl.
      { rewrite last_lookup. rewrite <- Hk'. exact H1. }
      rewrite Hl in Hb. exact Hb.
Qed.

(** The invariant of one object survives an accepted bid. *)
Lemma tracks_applied lo n socket_id data a0 a :
  (lo <= n)%nat ->
  tracks clock lo n a0 a ->
  clock n < endTime a ->
  currentBid a + minimumIncrement a <= bidAmount data ->
  tracks clock lo (S (S n)) a0 (applied socket_id data (clock (S n)) a).
Proof.
  intros Hlo [Hs Hc Hb Hsp Hst] Hopen Hok.
  destruct Hs as (Hid & Ht & Hd & Hi & Hinc & Hend).
  split; cbn.
  - now repeat split.
  - now rewrite last_snoc.
  - now rewrite last_snoc.
  - apply spaced_snoc; [exact Hsp|]. cbn. rewrite <- Hc, <- Hinc. exact Hok.
  - apply Forall_app. split.
    + eapply Forall_impl; [exact Hst|]. intros b. apply stamped_mono. lia.
    + constructor; [|constructor]. exists n. cbn. rewrite <- Hend.
      repeat split; auto; lia.
Qed.

Lemma Inv_seed w0 : seeded w0 -> Inv clock w0 w0.
Proof.
  intros Hs. split; [lia|]. unfold seeded in Hs.
  induction Hs; constructor; auto using tracks_fresh.
Qed.

Lemma Inv_weaken w0 w w' :
  auctionItems w' = auctionItems w ->
  (reads w <= reads w')%nat ->
  Inv clock w0 w -> Inv clock w0 w'.
Proof.
  intros Hi Hle [Hr HF]. split; [lia|]. rewrite Hi.
  eapply Forall2_impl; [exact HF|]. intros a0 a. now apply tracks_mono.
Qed.

Lemma Inv_handle w0 t w :
  Inv clock w0 w -> Inv clock w0 (exec (handle clock t) w).
Proof.
  intros HI. destruct t as [s|s d| | |]; cbn;
    try (apply (Inv_weaken w0 w); cbn; [reflexivity|lia|exact HI]).
  destruct (place_bid_outcome clock s d w)
    as [Hf Hi Hn _|ref a Hf He Hi Hn _|ref a Hf Ho Hl Hi Hn _|ref a Hf Ho Hk Hi Hn _];
    try (apply (Inv_weaken w0 w); [exact Hi|lia|exact HI]).
  destruct HI as [Hr HF].
  apply lookup_auction_Some in Hf as [Hlk _].
  destruct (Forall2_lookup_r _ _ _ _ _ HF Hlk) as (a0 & Hlk0 & Htr).
  split; [lia|]. rewrite Hi, Hn.
  rewrite <- (list_insert_id _ _ _ Hlk0).
  apply Forall2_insert.
  - eapply Forall2_impl; [exact HF|]. intros b0 b. apply tracks_mono. lia.
  - now apply tracks_applied.
Qed.

Lemma Inv_run w0 ts w :
  Inv clock w0 w -> Inv clock w0 (run clock ts w).
Proof.
  revert w. induction ts as [|t ts IH]; intros w HI; cbn; [exact HI|].
  apply IH, Inv_handle, HI.
Qed.

(** Every state reached from a seeded store satisfies the invariant. *)
Lemma reachable_Inv w0 ts :
  seeded w0 -> Inv clock w0 (run clock ts w0).
Proof. intros Hs. apply Inv_run, Inv_seed, Hs. Qed.

End Invariant.

(** ** Frame *)

Lemma grows_refl a : grows a a.
Proof. split; [apply same_static_refl|lia]. Qed.

Lemma grows_trans a b c : grows a b -> grows b c -> grows a c.
Proof.
  intros [Hs1 Hc1] [Hs2 Hc2]. split; [eapply same_static_trans; eauto|].
  destruct Hs1 as (_ & _ & _ & _ & Hinc & _). intros Hpos.
  specialize (Hc1 Hpos). rewrite Hinc in Hc2. specialize (Hc2 Hpos). lia.
Qed.

Lemma Forall2_refl_rel {A} (R : A -> A -> Prop) (l : list A) :
  (forall x, R x x) -> Forall2 R l l.
Proof. intros HR. induction l; constructor; auto. Qed.

Lemma Forall2_trans_rel {A} (R : A -> A -> Prop) :
  (forall x y z, R x y -> R y z -> R x z) ->
  forall l k m : list A, Forall2 R l k -> Forall2 R k m -> Forall2 R l m.
Proof.
  intros HR l k m H1. revert m.
  induction H1; intros m H2; inversion H2; subst; constructor; eauto.
Qed.

Lemma grows_applied socket_id data stamp a :
  currentBid a + minimumIncrement a <= bidAmount data ->
  grows a (applied socket_id data stamp a).
Proof. intros Hk. split; [apply same_static_applied|cbn; lia]. Qed.

Lemma handle_grows clock t w :
  Forall2 grows (auctionItems w) (auctionItems (exec (handle clock t) w)).
Proof.
  destruct t as [s|s d| | |]; cbn; try (apply Forall2_refl_rel, grows_refl).
  outcome_cases clock s d w; rewrite Hi; try (apply Forall2_refl_rel, grows_refl).
  apply lookup_auction_Some in Hf as [Hlk _].
  rewrite <- (list_insert_id _ _ _ Hlk) at 1.
  apply Forall2_insert; [apply Forall2_refl_rel, grows_refl|].
  now apply grows_applied.
Qed.

Lemma run_grows clock ts w :
  Forall2 grows (auctionItems w) (auctionItems (run clock ts w)).
Proof.
  revert w. induction ts as [|t ts IH]; intros w; cbn.
  - apply Forall2_refl_rel, grows_refl.
  - eapply (Forall2_trans_rel grows grows_trans); [apply handle_grows|apply IH].
Qed.

(** * The server over any arithmetic *)

Section JsServer.

Import Js.

Variable N : Arith.
Variable clock : nat -> Z.

Lemma js_emitted_app {A} (c : M N A) (w : World N) (out : list (Emission N)) :
  sent (exec c w) = sent w ++ out -> emitted c w = out.
Proof. unfold emitted. intros ->. apply drop_app_length. Qed.

Lemma js_lookup_auction_Some auctionId (items : list (Auction N)) ref a :
  lookup_auction auctionId items = Some (ref, a) ->
  items !! ref = Some a /\ id a = auctionId.
Proof. intros (? & ? & _)%list_find_Some. auto. Qed.

Lemma js_lookup_auction_insert auctionId (items : list (Auction N)) ref a a' :
  lookup_auction auctionId items = Some (ref, a) ->
  id a' = auctionId ->
  lookup_auction auctionId (<[ref := a']> items) = Some (ref, a').
Proof.
  unfold lookup_auction. intros (Hlk & Hid & Hmin)%list_find_Some Hid'.
  apply list_find_Some. split_and!.
  - apply list_lookup_insert_eq. now apply lookup_lt_Some in Hlk.
  - exact Hid'.
  - intros j y Hj Hlt. rewrite list_lookup_insert_ne in Hj by lia. eauto.
Qed.

(** One run of the handler, branch by branch. *)
Lemma js_place_bid_outcome socket_id data (w : World N) :
  bid_outcome clock socket_id data w.
Proof.
  destruct (lookup_auction (auctionId data) (auctionItems w)) as [[ref a]|] eqn:Hf.
  - destruct (Z_lt_le_dec (clock (reads w)) (endTime a)) as [Hopen|Hend].
    + destruct (lt N (bidAmount data) (add N (currentBid a) (minimumIncrement a)))
        eqn:Hlt.
      * assert (place_bid clock socket_id data w =
                (tt, mkWorld (auctionItems w) (S (reads w))
                       (sent w ++ [ToSocket socket_id
                                     (BidTooLow (auctionId data)
                                        (add N (currentBid a) (minimumIncrement a)))])))
          as Hrun.
        { unfold place_bid, bind, find_auction, lookup_auction in *. rewrite Hf. cbn.
          destruct (Z.geb_spec (clock (reads w)) (endTime a)) as [Hge|_]; [lia|].
          now rewrite Hlt. }
        eapply outcome_too_low; eauto; try apply js_emitted_app; unfold exec;
          now rewrite Hrun.
      * assert (place_bid clock socket_id data w =
                (tt, mkWorld
                       (<[ref := applied socket_id data (clock (S (reads w))) a]>
                          (auctionItems w))
                       (S (S (reads w)))
                       (sent w ++ Accepted socket_id
                                    (applied socket_id data (clock (S (reads w))) a))))
          as Hrun.
        { pose proof Hf as (_ & Hid & _)%list_find_Some.
          unfold place_bid, bind, find_auction, lookup_auction in *. rewrite Hf. cbn.
          destruct (Z.geb_spec (clock (reads w)) (endTime a)) as [Hge|_]; [lia|].
          rewrite Hlt. cbn. rewrite !list_insert_insert_eq.
          unfold socket_emit, emit, applied, Accepted. cbn.
          rewrite <- Hid, <- app_assoc. reflexivity. }
        eapply outcome_accepted; eauto; try apply js_emitted_app; unfold exec;
          now rewrite Hrun.
    + assert (place_bid clock socket_id data w =
              (tt, mkWorld (auctionItems w) (S (reads w))
                     (sent w ++ [ToSocket socket_id (AuctionEnded (auctionId data))])))
        as Hrun.
      { unfold place_bid, bind, find_auction, lookup_auction in *. rewrite Hf. cbn.
        destruct (Z.geb_spec (clock (reads w)) (endTime a)) as [_|Hlt]; [done|lia]. }
      eapply outcome_ended; eauto; try apply js_emitted_app; unfold exec;
        now rewrite Hrun.
  - assert (place_bid clock socket_id data w =
            (tt, mkWorld (auctionItems w) (reads w)
                   (sent w ++ [ToSocket socket_id (AuctionNotFound (auctionId data))])))
      as Hrun.
    { unfold place_bid, bind, find_auction, lookup_auction in *. now rewrite Hf. }
    apply outcome_not_found; auto; try apply js_emitted_app; unfold exec;
      now rewrite Hrun.
Qed.

End JsServer.

Ltac js_cases N clock sid d w :=
  destruct (js_place_bid_outcome N clock sid d w)
    as [Hf Hi Hn He
       |ref' a' Hf Hend Hi Hn He
       |ref' a' Hf Hopen Hlow Hi Hn He
       |ref' a' Hf Hopen Hok Hi Hn He].

Ltac js_unfold_outcomes :=
  unfold Js.Accepted, Js.AuctionNotFound, Js.AuctionEnded, Js.BidTooLow in *.

Section JsRuns.

Import Js.

Variable N : Arith.
Variable clock : nat -> Z.

Lemma js_accepted_iff socket_id data (w : World N) :
  accepted clock socket_id data w <->
  exists ref a,
    lookup_auction (auctionId data) (auctionItems w) = Some (ref, a) /\
    clock (reads w) < endTime a /\
    lt N (bidAmount data) (add N (currentBid a) (minimumIncrement a)) = false.
Proof.
  unfold accepted. js_cases N clock socket_id data w; rewrite He; split.
  all: try (intros [x Hx]; js_unfold_outcomes; discriminate).
  all: try (intros (r & b & Hf' & ? & ?); simplify_eq; (lia || congruence)).
  - intros _. eauto.
  - intros _. eauto.
Qed.

Lemma js_place_bid_accept socket_id data (w : World N) ref a :
  lookup_auction (auctionId data) (auctionItems w) = Some (ref, a) ->
  clock (reads w) < endTime a ->
  lt N (bidAmount data) (add N (currentBid a) (minimumIncrement a)) = false ->
  auctionItems (exec (place_bid clock socket_id data) w) =
    <[ref := applied socket_id data (clock (S (reads w))) a]> (auctionItems w) /\
  reads (exec (place_bid clock socket_id data) w) = S (S (reads w)) /\
  emitted (place_bid clock socket_id data) w =
    Accepted socket_id (applied socket_id data (clock (S (reads w))) a) /\
  lookup_auction (auctionId data) (auctionItems (exec (place_bid clock socket_id data) w)) =
    Some (ref, applied socket_id data (clock (S (reads w))) a).
Proof.
  intros Hlk Ho Hk.
  js_cases N clock socket_id data w; simplify_eq; try lia; try congruence.
  split_and!; auto. rewrite Hi.
  apply (js_lookup_auction_insert _ _ _ _ _ _ Hlk).
  apply js_lookup_auction_Some in Hlk as [_ Hid]. exact Hid.
Qed.

Lemma js_place_bid_reject_low socket_id data (w : World N) ref a :
  lookup_auction (auctionId data) (auctionItems w) = Some (ref, a) ->
  clock (reads w) < endTime a ->
  lt N (bidAmount data) (add N (currentBid a) (minimumIncrement a)) = true ->
  auctionItems (exec (place_bid clock socket_id data) w) = auctionItems w /\
  reads (exec (place_bid clock socket_id data) w) = S (reads w) /\
  emitted (place_bid clock socket_id data) w =
    [ToSocket socket_id
       (BidTooLow (auctionId data) (add N (currentBid a) (minimumIncrement a)))].
Proof.
  intros Hlk Ho Hl.
  js_cases N clock socket_id data w; simplify_eq; try lia; try congruence. auto.
Qed.

(** ** The invariant of the histories *)

Lemma js_same_static_refl (a : Auction N) : same_static a a.
Proof. now repeat split. Qed.

Lemma js_tracks_fresh (a0 : Auction N) : fresh a0 -> tracks a0 a0.
Proof.
  intros [Hb Hh]. split; rewrite ?Hh, ?Hb; cbn; auto using js_same_static_refl.
  split; intros *; rewrite ?lookup_nil; discriminate.
Qed.

Lemma js_checked_snoc seed inc (h : list (Bid N)) b :
  checked seed inc h ->
  lt N (amount b) (add N (from_option amount seed (last h)) inc) = false ->
  checked seed inc (h ++ [b]).
Proof.
  intros [H0 Hk] Hb. split.
  - intros b'. destruct h as [|b0 h]; cbn.
    + intros [= <-]. exact Hb.
    + intros [= <-]. now apply H0.
  - intros k b1 b2 H1 H2.
    destruct (decide (S k < length h)%nat) as [Hlt|Hge].
    + rewrite lookup_app_l in H1, H2 by lia. eauto.
    + assert (S k = length h) as Hk'.
      { apply lookup_lt_Some in H2. rewrite length_app in H2. cbn in H2. lia. }
      rewrite lookup_app_l in H1 by lia.
      rewrite lookup_app_r in H2 by lia.
      rewrite Hk', Nat.sub_diag in H2. injection H2 as <-.
      assert (last h = Some b1) as Hl.
      { rewrite last_lookup. rewrite <- Hk'. exact H1. }
      rewrite Hl in Hb. exact Hb.
Qed.

Lemma js_tracks_applied socket_id data stamp (a0 a : Auction N) :
  tracks a0 a ->
  lt N (bidAmount data) (add N (currentBid a) (minimumIncrement a)) = false ->
  tracks a0 (applied socket_id data stamp a).
Proof.
  intros [Hs Hc Hb Hsp] Hok.
  destruct Hs as (Hid & Ht & Hd & Hi & Hinc & Hend).
  split; cbn.
  - now repeat split.
  - now rewrite last_snoc.
  - now rewrite last_snoc.
  - apply js_checked_snoc; [exact Hsp|]. cbn. rewrite <- Hc, <- Hinc. exact Hok.
Qed.

Lemma js_handle_tracks (w0 : World N) t (w : World N) :
  Forall2 tracks (auctionItems w0) (auctionItems w) ->
  Forall2 tracks (auctionItems w0) (auctionItems (exec (handle clock t) w)).
Proof.
  intros HF. destruct t as [s|s d| | |]; cbn; auto.
  js_cases N clock s d w; rewrite Hi; auto.
  apply js_lookup_auction_Some in Hf as [Hlk _].
  destruct (Forall2_lookup_r _ _ _ _ _ HF Hlk) as (a0 & Hlk0 & Htr).
  rewrite <- (list_insert_id _ _ _ Hlk0).
  apply Forall2_insert; [exact HF|]. now apply js_tracks_applied.
Qed.

(** Every state reached from a seeded store satisfies the invariant. *)
Lemma js_reachable_tracks (w0 : World N) ts :
  seeded w0 ->
  Forall2 tracks (auctionItems w0) (auctionItems (run clock ts w0)).
Proof.
  intros Hs.
  assert (forall w, Forall2 tracks (auctionItems w0) (auctionItems w) ->
            Forall2 tracks (auctionItems w0) (auctionItems (run clock ts w))) as Hrun.
  { induction ts as [|t ts IH]; intros w HF; cbn; [exact HF|].
    apply IH, js_handle_tracks, HF. }
  apply Hrun, Forall_Forall2_diag. unfold seeded in Hs.
  eapply Forall_impl; [exact Hs|]. apply js_tracks_fresh.
Qed.

(** On a reachable state the price check compares the amount with the
    sum of the last accepted amount, or the seed price, and the increment. *)
Lemma js_validated_against_last (w0 : World N) ts socket_id data ref a0 a :
  seeded w0 ->
  auctionItems w0 !! ref = Some a0 ->
  lookup_auction (auctionId data) (auctionItems (run clock ts w0)) = Some (ref, a) ->
  clock (reads (run clock ts w0)) < endTime a ->
  (accepted clock socket_id data (run clock ts w0) <->
   lt N (bidAmount data)
     (add N (from_option amount (currentBid a0) (last (bidHistory a)))
        (minimumIncrement a)) = false).
Proof.
  intros Hs H0 Hlk Ho.
  pose proof (js_reachable_tracks w0 ts Hs) as HF.
  pose proof Hlk as [Hi _]%js_lookup_auction_Some.
  destruct (Forall2_lookup_r _ _ _ _ _ HF Hi) as (a0' & H0' & [_ Hc _ _]).
  simplify_eq. rewrite <- Hc. rewrite js_accepted_iff. split.
  - intros (r & b & Hlk' & _ & Hk). now simplify_eq.
  - intros Hk. eauto.
Qed.

Lemma js_history_checked (w0 : World N) ts :
  seeded w0 ->
  Forall
    (fun a => forall k b1 b2,
       bidHistory a !! k = Some b1 -> bidHistory a !! S k = Some b2 ->
       lt N (amount b2) (add N (amount b1) (minimumIncrement a)) = false)
    (auctionItems (run clock ts w0)).
Proof.
  intros Hs. pose proof (js_reachable_tracks w0 ts Hs) as HF.
  apply Forall_lookup. intros i a Hi.
  destruct (Forall2_lookup_r _ _ _ _ _ HF Hi) as (a0 & _ & [Hst _ _ [_ Hsp]]).
  destruct Hst as (_ & _ & _ & _ & -> & _). exact Hsp.
Qed.

(** ** Prices that never go down *)

Lemma js_not_lower_refl (D : number N -> Prop) (items : list (Auction N)) :
  never_lowers D items ->
  Forall2 (fun a a' => lt N (currentBid a') (currentBid a) = false) items items.
Proof.
  intros (Hrefl & _ & Hinc).
  apply Forall_Forall2_diag. eapply Forall_impl; [exact Hinc|].
  intros a [HD _]. now apply Hrefl.
Qed.

Lemma js_handle_not_lower (D : number N -> Prop) t (w : World N) :
  never_lowers D (auctionItems w) ->
  amounts_in D [t] ->
  never_lowers D (auctionItems (exec (handle clock t) w)) /\
  Forall2 (fun a a' => lt N (currentBid a') (currentBid a) = false)
    (auctionItems w) (auctionItems (exec (handle clock t) w)).
Proof.
  intros Hl Ht. pose proof (js_not_lower_refl D _ Hl) as Hsame.
  destruct t as [s|s d| | |]; cbn; try (split; assumption).
  apply Forall_inv in Ht. cbn in Ht.
  js_cases N clock s d w; rewrite Hi; try (split; assumption).
  destruct Hl as (Hrefl & Htrans & Hinc).
  apply js_lookup_auction_Some in Hf as [Hlk _].
  destruct (Forall_lookup_1 _ _ _ _ Hinc Hlk) as [HD Hraise].
  split.
  - repeat split; try assumption. apply Forall_insert; [exact Hinc|]. now split.
  - rewrite <- (list_insert_id _ _ _ Hlk) at 1.
    apply Forall2_insert; [exact Hsame|]. cbn.
    exact (Hraise _ _ HD Ht Hok).
Qed.

Lemma js_run_not_lower (D : number N -> Prop) ts (w : World N) :
  never_lowers D (auctionItems w) ->
  amounts_in D ts ->
  never_lowers D (auctionItems (run clock ts w)) /\
  Forall2 (fun a a' => lt N (currentBid a') (currentBid a) = false)
    (auctionItems w) (auctionItems (run clock ts w)).
Proof.
  revert w. induction ts as [|t ts IH]; intros w Hl Hts; cbn.
  - split; [exact Hl|]. now apply (js_not_lower_refl D).
  - apply Forall_cons in Hts as [Ht Hts].
    destruct (js_handle_not_lower D t w Hl) as [Hl' HF].
    { now apply Forall_singleton. }
    destruct (IH _ Hl' Hts) as [Hl'' HF']. split; [exact Hl''|].
    destruct Hl as (_ & Htrans & Hinc).
    destruct Hl' as (_ & _ & Hinc'). destruct Hl'' as (_ & _ & Hinc'').
    apply Forall2_same_length_lookup. split.
    { rewrite (Forall2_length _ _ _ HF). exact (Forall2_length _ _ _ HF'). }
    intros i a a'' Hi Hi''.
    destruct (Forall2_lookup_l _ _ _ _ _ HF Hi) as (a' & Hi' & H1).
    pose proof (Forall2_lookup_lr _ _ _ _ _ _ HF' Hi' Hi'') as H2.
    destruct (Forall_lookup_1 _ _ _ _ Hinc Hi) as [HD _].
    destruct (Forall_lookup_1 _ _ _ _ Hinc' Hi') as [HD' _].
    destruct (Forall_lookup_1 _ _ _ _ Hinc'' Hi'') as [HD'' _].
    exact (Htrans _ _ _ HD HD' HD'' H1 H2).
Qed.

End JsRuns.

(** Case analysis on a number known to be one of a list. *)
Ltac among_the_listed H :=
  repeat (apply elem_of_cons in H as [->|H]); try (now apply elem_of_nil in H).

Lemma boot_never_lowers clock :
  Js.never_lowers (fun _ => True) (Js.auctionItems (Js.boot exact_integers clock)).
Proof.
  split_and!.
  - intros x _. apply Z.ltb_irrefl.
  - intros x y z _ _ _ Hxy Hyz. cbn in *. apply Z.ltb_ge. apply Z.ltb_ge in Hxy, Hyz. lia.
  - repeat constructor; intros c z _ _ Hz; cbn in *; apply Z.ltb_ge;
      apply Z.ltb_ge in Hz; lia.
Qed.

Lemma amounts_in_all {N} (ts : list (Js.Task N)) : Js.amounts_in (fun _ => True) ts.
Proof. apply Forall_forall. now intros []. Qed.

(** ** Double precision *)

(** [<] is irreflexive on doubles, [NaN] included. *)
Lemma SFltb_irrefl x : SFltb x x = false.
Proof.
  unfold SFltb, SFcompare.
  destruct x as [s|s| |s m e]; [now destruct s|now destruct s|reflexivity|].
  rewrite Z.compare_refl, Pos.compare_cont_refl. now destruct s.
Qed.

(** Numerically equal doubles are not below one another. *)
Lemma SFeqb_not_lt x y : SFeqb x y = true -> SFltb x y = false.
Proof. unfold SFeqb, SFltb. now destruct (SFcompare x y) as [[]|]. Qed.

(** * The properties *)

(** C1 (arrival order).  In double precision, on an auction priced 150
    with increment 10, the requests 160 by A, 155 by B and 170 by C,
    handled in this order and each validated before the deadline: A is
    accepted and the price becomes 160; B is answered [BidTooLow] with
    [minimumBid] 170, the check being made against 160; C is accepted and
    the price becomes 170.  In every arithmetic, and in every state
    reached from a seeded store, a bid that passes the lookup and the
    deadline check is accepted exactly when its amount is not below the
    sum, as the arithmetic computes it, of the increment and the amount of
    the last accepted bid of this auction (the seed price when there is
    none). *)
Theorem C1_arrival_order clock :
  (forall show (w : Js.World (binary64 show)) ref a aid sA sB sC,
     let n := Js.literal (binary64 show) in
     Js.lookup_auction aid (Js.auctionItems w) = Some (ref, a) ->
     Js.currentBid a = n 150 ->
     Js.minimumIncrement a = n 10 ->
     clock (Js.reads w) < Js.endTime a ->
     clock (2 + Js.reads w)%nat < Js.endTime a ->
     clock (3 + Js.reads w)%nat < Js.endTime a ->
     let bidA := Js.mkPlaceBid aid (n 160) (Some "A") in
     let bidB := Js.mkPlaceBid aid (n 155) (Some "B") in
     let bidC := Js.mkPlaceBid aid (n 170) (Some "C") in
     let w1 := Js.exec (Js.place_bid clock sA bidA) w in
     let w2 := Js.exec (Js.place_bid clock sB bidB) w1 in
     let w3 := Js.exec (Js.place_bid clock sC bidC) w2 in
     exists a1 a3,
       Js.emitted (Js.place_bid clock sA bidA) w = Js.Accepted sA a1 /\
       Js.lookup_auction aid (Js.auctionItems w1) = Some (ref, a1) /\
       Js.currentBid a1 = n 160 /\ Js.highestBidder a1 = Some "A" /\
       Js.emitted (Js.place_bid clock sB bidB) w1 =
         [Js.ToSocket sB (Js.BidTooLow aid (n 170))] /\
       Js.auctionItems w2 = Js.auctionItems w1 /\
       Js.emitted (Js.place_bid clock sC bidC) w2 = Js.Accepted sC a3 /\
       Js.lookup_auction aid (Js.auctionItems w3) = Some (ref, a3) /\
       Js.currentBid a3 = n 170 /\ Js.highestBidder a3 = Some "C" /\
       Js.amount <$> Js.bidHistory a3 =
         (Js.amount <$> Js.bidHistory a) ++ [n 160; n 170]) /\
  (forall N (w0 : Js.World N) ts socket_id data ref a0 a,
     Js.seeded w0 ->
     Js.auctionItems w0 !! ref = Some a0 ->
     Js.lookup_auction (Js.auctionId data) (Js.auctionItems (Js.run clock ts w0)) =
       Some (ref, a) ->
     clock (Js.reads (Js.run clock ts w0)) < Js.endTime a ->
     (Js.accepted clock socket_id data (Js.run clock ts w0) <->
      Js.lt N (Js.bidAmount data)
        (Js.add N (from_option Js.amount (Js.currentBid a0) (last (Js.bidHistory a)))
           (Js.minimumIncrement a)) = false)).
Proof.
  split; [|intros N; apply js_validated_against_last].
  intros show w ref a aid sA sB sC n Hlk Hc Hinc HoA HoB HoC bidA bidB bidC w1 w2 w3.
  set (N := binary64 show) in *.
  destruct (js_place_bid_accept N clock sA bidA w ref a Hlk HoA)
    as (HiA & HnA & HeA & HlA).
  { rewrite Hc, Hinc. reflexivity. }
  set (a1 := Js.applied sA bidA (clock (S (Js.reads w))) a) in *.
  fold w1 in HiA, HnA, HlA.
  destruct (js_place_bid_reject_low N clock sB bidB w1 ref a1 HlA) as (HiB & HnB & HeB).
  { rewrite HnA. exact HoB. }
  { cbn [a1 Js.applied Js.currentBid Js.minimumIncrement bidA bidB Js.bidAmount].
    rewrite Hinc. reflexivity. }
  fold w2 in HiB, HnB.
  assert (Js.lookup_auction (Js.auctionId bidC) (Js.auctionItems w2) = Some (ref, a1))
    as HlB.
  { rewrite HiB. exact HlA. }
  destruct (js_place_bid_accept N clock sC bidC w2 ref a1 HlB) as (HiC & HnC & HeC & HlC).
  { rewrite HnB, HnA. exact HoC. }
  { cbn [a1 Js.applied Js.currentBid Js.minimumIncrement bidA bidC Js.bidAmount].
    rewrite Hinc. reflexivity. }
  fold w3 in HiC, HlC.
  exists a1, (Js.applied sC bidC (clock (S (Js.reads w2))) a1).
  split_and!; auto.
  - rewrite HeB.
    cbn [a1 Js.applied Js.currentBid Js.minimumIncrement bidA bidB Js.bidAmount
         Js.auctionId].
    rewrite Hinc. reflexivity.
  - cbn. rewrite !fmap_app, <- app_assoc. reflexivity.
Qed.

Lemma C1_arrival_order_witness :
  (exists a1 a3,
     Js.emitted (Js.place_bid ticking "sA" (Js.mkPlaceBid 1 (Js.literal doubles 160) (Some "A")))
       (Js.boot doubles ticking) = Js.Accepted "sA" a1 /\
     Js.lookup_auction 1
       (Js.auctionItems
          (Js.exec (Js.place_bid ticking "sA"
                      (Js.mkPlaceBid 1 (Js.literal doubles 160) (Some "A")))
             (Js.boot doubles ticking))) = Some (0%nat, a1) /\
     Js.currentBid a1 = Js.literal doubles 160 /\ Js.highestBidder a1 = Some "A" /\
     Js.emitted (Js.place_bid ticking "sB" (Js.mkPlaceBid 1 (Js.literal doubles 155) (Some "B")))
       (Js.exec (Js.place_bid ticking "sA"
                   (Js.mkPlaceBid 1 (Js.literal doubles 160) (Some "A")))
          (Js.boot doubles ticking)) =
       [Js.ToSocket "sB"
          (Js.bid_error "Bid must be at least $170" 1 (Some (Js.literal doubles 170)))] /\
     Js.auctionItems
       (Js.exec (Js.place_bid ticking "sB"
                   (Js.mkPlaceBid 1 (Js.literal doubles 155) (Some "B")))
          (Js.exec (Js.place_bid ticking "sA"
                      (Js.mkPlaceBid 1 (Js.literal doubles 160) (Some "A")))
             (Js.boot doubles ticking))) =
     Js.auctionItems
       (Js.exec (Js.place_bid ticking "sA"
                   (Js.mkPlaceBid 1 (Js.literal doubles 160) (Some "A")))
          (Js.boot doubles ticking)) /\
     Js.emitted (Js.place_bid ticking "sC" (Js.mkPlaceBid 1 (Js.literal doubles 170) (Some "C")))
       (Js.exec (Js.place_bid ticking "sB"
                   (Js.mkPlaceBid 1 (Js.literal doubles 155) (Some "B")))
          (Js.exec (Js.place_bid ticking "sA"
                      (Js.mkPlaceBid 1 (Js.literal doubles 160) (Some "A")))
             (Js.boot doubles ticking))) = Js.Accepted "sC" a3 /\
     Js.lookup_auction 1
       (Js.auctionItems
          (Js.exec (Js.place_bid ticking "sC"
                      (Js.mkPlaceBid 1 (Js.literal doubles 170) (Some "C")))
             (Js.exec (Js.place_bid ticking "sB"
                         (Js.mkPlaceBid 1 (Js.literal doubles 155) (Some "B")))
                (Js.exec (Js.place_bid ticking "sA"
                            (Js.mkPlaceBid 1 (Js.literal doubles 160) (Some "A")))
                   (Js.boot doubles ticking))))) = Some (0%nat, a3) /\
     Js.currentBid a3 = Js.literal doubles 170 /\ Js.highestBidder a3 = Some "C" /\
     Js.amount <$> Js.bidHistory a3 = [Js.literal doubles 160; Js.literal doubles 170]) /\
  (Js.accepted ticking "sB" (Js.mkPlaceBid 1 (Js.literal doubles 165) (Some "B"))
     (Js.run ticking
        [Js.PlaceBidEvent "sA" (Js.mkPlaceBid 1 (Js.literal doubles 160) (Some "A"))]
        (Js.boot doubles ticking)) <->
   Js.lt doubles (Js.literal doubles 165)
     (Js.add doubles (Js.literal doubles 160) (Js.literal doubles 10)) = false).
Proof.
  split.
  - exact (proj1 (C1_arrival_order ticking) _ (Js.boot doubles ticking) 0%nat
             (Js.vintage_camera doubles ticking)
             1 "sA" "sB" "sC" eq_refl eq_refl eq_refl eq_refl eq_refl eq_refl).
  - apply (proj2 (C1_arrival_order ticking) doubles (Js.boot doubles ticking)
             [Js.PlaceBidEvent "sA" (Js.mkPlaceBid 1 (Js.literal doubles 160) (Some "A"))]
             "sB" (Js.mkPlaceBid 1 (Js.literal doubles 165) (Some "B")) 0%nat
             (Js.vintage_camera doubles ticking)
             (Js.applied "sA" (Js.mkPlaceBid 1 (Js.literal doubles 160) (Some "A")) 5
                (Js.vintage_camera doubles ticking))).
    + repeat constructor.
    + reflexivity.
    + reflexivity.
    + reflexivity.
Defined.

(** C2 (deadline exactness).  A bid on an existing auction whose
    validation clock reading is at or past [endTime] is answered with
    [AuctionEnded], to the submitter, whatever the amount and whatever the
    state of the auction, and the store is left as it was. *)
Theorem C2_deadline_rejects clock socket_id data w ref a :
  lookup_auction (auctionId data) (auctionItems w) = Some (ref, a) ->
  clock (reads w) >= endTime a ->
  emitted (place_bid clock socket_id data) w =
    [ToSocket socket_id (AuctionEnded (auctionId data))] /\
  auctionItems (exec (place_bid clock socket_id data) w) = auctionItems w.
Proof.
  intros Hlk Hge.
  outcome_cases clock socket_id data w; simplify_eq; try lia; auto.
Qed.

Lemma C2_deadline_rejects_witness :
  emitted (place_bid at_deadline "s1" (mkPlaceBid 1 1000000 (Some "A"))) (boot at_deadline) =
    [ToSocket "s1" (AuctionEnded 1)] /\
  auctionItems (exec (place_bid at_deadline "s1" (mkPlaceBid 1 1000000 (Some "A")))
                  (boot at_deadline)) = auctionItems (boot at_deadline).
Proof.
  eapply (C2_deadline_rejects at_deadline "s1" (mkPlaceBid 1 1000000 (Some "A"))
            (boot at_deadline)).
  - reflexivity.
  - vm_compute. discriminate.
Defined.

(** C3 (price check).  In every arithmetic, on an existing auction that
    has not ended, a bid is answered with [BidTooLow] exactly when its
    amount is below the sum [currentBid + minimumIncrement] as the
    arithmetic computes it; that rejection carries this computed sum as
    [minimumBid] and leaves the store alone; a bid that is not below the
    sum is accepted.  Whatever the request, an emission with a
    [minimumBid] field is this rejection, and [AuctionNotFound] and
    [AuctionEnded] have no such field.  In double precision a bid whose
    amount is the computed sum, or is numerically equal to it, is
    accepted. *)
Theorem C3_price_check clock :
  (forall N socket_id (data : Js.PlaceBid N) w,
     (forall ref a,
        Js.lookup_auction (Js.auctionId data) (Js.auctionItems w) = Some (ref, a) ->
        clock (Js.reads w) < Js.endTime a ->
        ((exists m, Js.emitted (Js.place_bid clock socket_id data) w =
                      [Js.ToSocket socket_id (Js.BidTooLow (Js.auctionId data) m)]) <->
         Js.lt N (Js.bidAmount data)
           (Js.add N (Js.currentBid a) (Js.minimumIncrement a)) = true) /\
        (forall m, Js.emitted (Js.place_bid clock socket_id data) w =
                     [Js.ToSocket socket_id (Js.BidTooLow (Js.auctionId data) m)] ->
                   m = Js.add N (Js.currentBid a) (Js.minimumIncrement a) /\
                   Js.auctionItems (Js.exec (Js.place_bid clock socket_id data) w) =
                     Js.auctionItems w) /\
        (Js.lt N (Js.bidAmount data)
           (Js.add N (Js.currentBid a) (Js.minimumIncrement a)) = false ->
         Js.accepted clock socket_id data w /\
         Js.emitted (Js.place_bid clock socket_id data) w =
           Js.Accepted socket_id
             (Js.applied socket_id data (clock (S (Js.reads w))) a))) /\
     (forall e m,
        e ∈ Js.emitted (Js.place_bid clock socket_id data) w ->
        Js.minimumBid_of (Js.payload_of e) = Some m ->
        e = Js.ToSocket socket_id (Js.BidTooLow (Js.auctionId data) m) /\
        exists ref a,
          Js.lookup_auction (Js.auctionId data) (Js.auctionItems w) = Some (ref, a) /\
          clock (Js.reads w) < Js.endTime a /\
          Js.lt N (Js.bidAmount data)
            (Js.add N (Js.currentBid a) (Js.minimumIncrement a)) = true /\
          m = Js.add N (Js.currentBid a) (Js.minimumIncrement a)) /\
     Js.minimumBid_of (Js.AuctionNotFound (N:=N) (Js.auctionId data)) = None /\
     Js.minimumBid_of (Js.AuctionEnded (N:=N) (Js.auctionId data)) = None) /\
  (forall show socket_id (data : Js.PlaceBid (binary64 show))
          (w : Js.World (binary64 show)) ref (a : Js.Auction (binary64 show)),
     Js.lookup_auction (Js.auctionId data) (Js.auctionItems w) = Some (ref, a) ->
     clock (Js.reads w) < Js.endTime a ->
     Js.bidAmount data = SFadd 53 1024 (Js.currentBid a) (Js.minimumIncrement a) \/
     SFeqb (Js.bidAmount data)
       (SFadd 53 1024 (Js.currentBid a) (Js.minimumIncrement a)) = true ->
     Js.accepted clock socket_id data w /\
     Js.emitted (Js.place_bid clock socket_id data) w =
       Js.Accepted socket_id (Js.applied socket_id data (clock (S (Js.reads w))) a)).
Proof.
  assert (forall N socket_id (data : Js.PlaceBid N) w ref a,
            Js.lookup_auction (Js.auctionId data) (Js.auctionItems w) = Some (ref, a) ->
            clock (Js.reads w) < Js.endTime a ->
            Js.lt N (Js.bidAmount data)
              (Js.add N (Js.currentBid a) (Js.minimumIncrement a)) = false ->
            Js.accepted clock socket_id data w /\
            Js.emitted (Js.place_bid clock socket_id data) w =
              Js.Accepted socket_id
                (Js.applied socket_id data (clock (S (Js.reads w))) a)) as Hacc.
  { intros N socket_id data w ref a Hlk Ho Hk.
    destruct (js_place_bid_accept N clock socket_id data w ref a Hlk Ho Hk)
      as (_ & _ & Hem & _).
    split; [|exact Hem]. eexists. exact Hem. }
  split.
  - intros N socket_id data w. split_and!; [| |reflexivity|reflexivity].
    + intros ref a Hlk Ho. split_and!.
      * js_cases N clock socket_id data w; simplify_eq; try lia; rewrite He; split.
        all: try (intros [m Hm]; js_unfold_outcomes; discriminate).
        all: try congruence.
        all: eauto.
      * intros m Hm.
        js_cases N clock socket_id data w; simplify_eq; try lia;
          rewrite He in Hm; js_unfold_outcomes; try discriminate.
        split; [congruence|assumption].
      * now apply (Hacc N socket_id data w ref a).
    + intros e m Hin Hm.
      js_cases N clock socket_id data w; rewrite He in Hin; js_unfold_outcomes;
        repeat (apply elem_of_cons in Hin as [->|Hin]); try (cbn in Hm; discriminate);
        try (now apply elem_of_nil in Hin).
      cbn in Hm. injection Hm as <-. split; [reflexivity|]. eauto 10.
  - intros show socket_id data w ref a Hlk Ho Heq.
    apply (Hacc (binary64 show) socket_id data w ref a Hlk Ho).
    destruct Heq as [Heq|Heq]; [|now apply SFeqb_not_lt].
    cbn. rewrite Heq. apply SFltb_irrefl.
Qed.

Lemma C3_price_check_witness :
  ((exists m,
      Js.emitted (Js.place_bid ticking "s1" (Js.mkPlaceBid 1 (Js.literal doubles 159) (Some "A")))
        (Js.boot doubles ticking) = [Js.ToSocket "s1" (Js.BidTooLow 1 m)]) <->
   Js.lt doubles (Js.literal doubles 159)
     (Js.add doubles (Js.literal doubles 150) (Js.literal doubles 10)) = true) /\
  (forall m,
     Js.emitted (Js.place_bid ticking "s1" (Js.mkPlaceBid (N:=doubles) 1 (dyadic 319 (-1)) (Some "A")))
       (Js.boot doubles ticking) = [Js.ToSocket "s1" (Js.BidTooLow 1 m)] ->
     m = Js.add doubles (Js.literal doubles 150) (Js.literal doubles 10) /\
     Js.auctionItems
       (Js.exec (Js.place_bid ticking "s1" (Js.mkPlaceBid (N:=doubles) 1 (dyadic 319 (-1)) (Some "A")))
          (Js.boot doubles ticking)) = Js.auctionItems (Js.boot doubles ticking)) /\
  (Js.accepted ticking "s2" (Js.mkPlaceBid 1 (Js.literal doubles 160) (Some "B"))
     (Js.boot doubles ticking) /\
   Js.emitted (Js.place_bid ticking "s2" (Js.mkPlaceBid 1 (Js.literal doubles 160) (Some "B")))
     (Js.boot doubles ticking) =
     [Js.ToAll (Js.auction_update 1 (Js.literal doubles 160) (Some "B")
                  [Js.mkBid (Js.literal doubles 160) "B" 5]);
      Js.ToSocket "s2" (Js.bid_success 1 (Js.literal doubles 160))]).
Proof.
  split; [|split].
  - exact (proj1 (proj1 (proj1 (C3_price_check ticking) doubles "s1"
                           (Js.mkPlaceBid 1 (Js.literal doubles 159) (Some "A"))
                           (Js.boot doubles ticking))
                    0%nat (Js.vintage_camera doubles ticking) eq_refl eq_refl)).
  - exact (proj1 (proj2 (proj1 (proj1 (C3_price_check ticking) doubles "s1"
                                  (Js.mkPlaceBid (N:=doubles) 1 (dyadic 319 (-1)) (Some "A"))
                                  (Js.boot doubles ticking))
                           0%nat (Js.vintage_camera doubles ticking) eq_refl eq_refl))).
  - exact (proj2 (C3_price_check ticking) _ "s2"
             (Js.mkPlaceBid 1 (Js.literal doubles 160) (Some "B"))
             (Js.boot doubles ticking) 0%nat (Js.vintage_camera doubles ticking)
             eq_refl eq_refl (or_introl eq_refl)).
Defined.

(** C4 (price, holder and history agree).  An accepted bid leaves the
    targeted auction with [currentBid] equal to the amount of the bid,
    which is the amount of the last entry of [bidHistory]; with
    [highestBidder] equal to the bidder of that entry; and with a history
    that is the old one followed by that single entry.  In every state
    reached from a seeded store, [currentBid] is the amount of the last
    entry, or the seed price when the history is empty, and
    [highestBidder] is the bidder of the last entry, or [null]. *)
Theorem C4_price_follows_history clock :
  (forall socket_id data w,
     accepted clock socket_id data w ->
     exists ref a a' b,
       lookup_auction (auctionId data) (auctionItems w) = Some (ref, a) /\
       lookup_auction (auctionId data)
         (auctionItems (exec (place_bid clock socket_id data) w)) = Some (ref, a') /\
       bidHistory a' = bidHistory a ++ [b] /\
       last (bidHistory a') = Some b /\
       currentBid a' = bidAmount data /\
       amount b = bidAmount data /\
       highestBidder a' = Some (bidder b)) /\
  (forall w0 ts,
     seeded w0 ->
     Forall2
       (fun a0 a =>
          currentBid a = from_option amount (currentBid a0) (last (bidHistory a)) /\
          highestBidder a = bidder <$> last (bidHistory a))
       (auctionItems w0) (auctionItems (run clock ts w0))).
Proof.
  split.
  - intros socket_id data w (ref & a & Hlk & _ & _ & _ & Hlk')%accepted_inv.
    exists ref, a, (applied socket_id data (clock (S (reads w))) a),
      (mkBid (bidAmount data) (or_socket_id (bidderName data) socket_id)
         (clock (S (reads w)))).
    split_and!; auto. cbn. apply last_snoc.
  - intros w0 ts Hs.
    destruct (reachable_Inv clock w0 ts Hs) as [_ HF].
    eapply Forall2_impl; [exact HF|]. intros a0 a [_ Hc Hb _ _]. auto.
Qed.

Lemma C4_price_follows_history_witness :
  (exists ref a a' b,
     lookup_auction 1 (auctionItems (boot ticking)) = Some (ref, a) /\
     lookup_auction 1
       (auctionItems (exec (place_bid ticking "s1" (mkPlaceBid 1 160 (Some "A")))
                        (boot ticking))) = Some (ref, a') /\
     bidHistory a' = bidHistory a ++ [b] /\
     last (bidHistory a') = Some b /\
     currentBid a' = 160 /\
     amount b = 160 /\
     highestBidder a' = Some (bidder b)) /\
  Forall2
    (fun a0 a =>
       currentBid a = from_option amount (currentBid a0) (last (bidHistory a)) /\
       highestBidder a = bidder <$> last (bidHistory a))
    (auctionItems (boot ticking))
    (auctionItems
       (run ticking
          [Connection "s1"; PlaceBidEvent "s1" (mkPlaceBid 1 160 (Some "A")); TimerTick;
           PlaceBidEvent "s2" (mkPlaceBid 1 165 None);
           PlaceBidEvent "s2" (mkPlaceBid 1 175 None)]
          (boot ticking))).
Proof.
  split.
  - apply (proj1 (C4_price_follows_history ticking) "s1" (mkPlaceBid 1 160 (Some "A"))
             (boot ticking)).
    exists (applied "s1" (mkPlaceBid 1 160 (Some "A")) 5 (vintage_camera ticking)).
    reflexivity.
  - apply (proj2 (C4_price_follows_history ticking) (boot ticking)).
    repeat constructor.
Defined.




(** C6 (acceptance before the deadline).  In every state reached from a
    seeded store, every history entry was appended by a run of the handler
    whose deadline check read a clock value strictly below [endTime].  The
    stored timestamp is the value of the next call of [Date.now()], made
    when the entry is built; it is below [endTime] when that second
    reading is. *)
Theorem C6_checked_before_deadline clock w0 ts :
  seeded w0 ->
  Forall
    (fun a =>
       Forall
         (fun b => exists k : nat,
            (reads w0 <= k)%nat /\ (S k < reads (run clock ts w0))%nat /\
            clock k < endTime a /\
            timestamp b = clock (S k) /\
            (clock (S k) < endTime a -> timestamp b < endTime a))
         (bidHistory a))
    (auctionItems (run clock ts w0)).
Proof.
  intros Hs. destruct (reachable_Inv clock w0 ts Hs) as [_ HF].
  apply Forall_lookup. intros i a Hi.
  destruct (Forall2_lookup_r _ _ _ _ _ HF Hi) as (a0 & _ & [Hst _ _ _ Hstamp]).
  destruct Hst as (_ & _ & _ & _ & _ & ->).
  eapply Forall_impl; [exact Hstamp|].
  intros b (k & ? & ? & ? & Hk). exists k. split_and!; auto. now rewrite Hk.
Qed.

Lemma C6_checked_before_deadline_witness :
  Forall
    (fun a =>
       Forall
         (fun b => exists k : nat,
            (reads (boot crossing) <= k)%nat /\
            (S k < reads (run crossing [PlaceBidEvent "s1" (mkPlaceBid 1 160 (Some "A"))]
                            (boot crossing)))%nat /\
            crossing k < endTime a /\
            timestamp b = crossing (S k) /\
            (crossing (S k) < endTime a -> timestamp b < endTime a))
         (bidHistory a))
    (auctionItems (run crossing [PlaceBidEvent "s1" (mkPlaceBid 1 160 (Some "A"))]
                     (boot crossing))).
Proof.
  apply (C6_checked_before_deadline crossing (boot crossing)).
  repeat constructor.
Defined.

(** The deadline check of call 4 reads 899999 and the bid is accepted; the
    entry is stamped by call 5, which reads 900000, the deadline itself. *)
Lemma C6_timestamp_at_deadline :
  seeded (boot crossing) /\
  accepted crossing "s1" (mkPlaceBid 1 160 (Some "A")) (boot crossing) /\
  ~ timestamps_before_endTime
      (run crossing [PlaceBidEvent "s1" (mkPlaceBid 1 160 (Some "A"))] (boot crossing)).
Proof.
  split_and!.
  - repeat constructor.
  - exists (applied "s1" (mkPlaceBid 1 160 (Some "A")) 900000 (vintage_camera crossing)).
    reflexivity.
  - unfold timestamps_before_endTime. intros H.
    apply (Forall_lookup_1 _ _ 0%nat
             (applied "s1" (mkPlaceBid 1 160 (Some "A")) 900000 (vintage_camera crossing)))
      in H; [|reflexivity].
    apply (Forall_lookup_1 _ _ 0%nat (mkBid 160 "A" 900000)) in H; [|reflexivity].
    vm_compute in H. discriminate.
Qed.

(** C7 (idempotent rejection).  When a request is answered with
    [BidTooLow], the store is as before, and submitting the same request
    again, the deadline still not reached, is answered with the same
    [BidTooLow] and the same [minimumBid], again without any change of the
    store. *)
Theorem C7_rejection_idempotent clock socket_id data w ref a m :
  lookup_auction (auctionId data) (auctionItems w) = Some (ref, a) ->
  emitted (place_bid clock socket_id data) w =
    [ToSocket socket_id (BidTooLow (auctionId data) m)] ->
  clock (reads (exec (place_bid clock socket_id data) w)) < endTime a ->
  auctionItems (exec (place_bid clock socket_id data) w) = auctionItems w /\
  emitted (place_bid clock socket_id data) (exec (place_bid clock socket_id data) w) =
    [ToSocket socket_id (BidTooLow (auctionId data) m)] /\
  auctionItems (exec (place_bid clock socket_id data)
                  (exec (place_bid clock socket_id data) w)) = auctionItems w.
Proof.
  intros Hlk Hout Hopen2.
  outcome_cases clock socket_id data w; simplify_eq;
    rewrite He in Hout; unfold_outcomes; try discriminate.
  assert (m = currentBid a + minimumIncrement a) as -> by congruence.
  set (w1 := exec (place_bid clock socket_id data) w) in *.
  split; [assumption|].
  destruct (place_bid_outcome clock socket_id data w1)
    as [Hf1 Hi1 Hn1 He1
       |ref1 a1 Hf1 Hend1 Hi1 Hn1 He1
       |ref1 a1 Hf1 Hopen1 Hlow1 Hi1 Hn1 He1
       |ref1 a1 Hf1 Hopen1 Hok1 Hi1 Hn1 He1];
    rewrite Hi in Hf1; simplify_eq; try lia.
  rewrite He1, Hi1. auto.
Qed.

Lemma C7_rejection_idempotent_witness :
  auctionItems (exec (place_bid ticking "s1" (mkPlaceBid 4 84 None)) (boot ticking)) =
    auctionItems (boot ticking) /\
  emitted (place_bid ticking "s1" (mkPlaceBid 4 84 None))
    (exec (place_bid ticking "s1" (mkPlaceBid 4 84 None)) (boot ticking)) =
    [ToSocket "s1" (BidTooLow 4 85)] /\
  auctionItems (exec (place_bid ticking "s1" (mkPlaceBid 4 84 None))
                  (exec (place_bid ticking "s1" (mkPlaceBid 4 84 None)) (boot ticking))) =
    auctionItems (boot ticking).
Proof.
  eapply (C7_rejection_idempotent ticking "s1" (mkPlaceBid 4 84 None) (boot ticking)).
  - reflexivity.
  - reflexivity.
  - reflexivity.
Defined.

(** C8 (unknown auction).  When no auction of the store carries the
    requested identifier, the only emission is [AuctionNotFound] on the
    submitter's socket, the clock is not read, and the store is left as it
    was, whatever the amount, the name and the clock. *)
Theorem C8_not_found clock socket_id data w :
  Forall (fun a => id a <> auctionId data) (auctionItems w) ->
  emitted (place_bid clock socket_id data) w =
    [ToSocket socket_id (AuctionNotFound (auctionId data))] /\
  auctionItems (exec (place_bid clock socket_id data) w) = auctionItems w /\
  reads (exec (place_bid clock socket_id data) w) = reads w.
Proof.
  intros Hno%lookup_auction_None.
  outcome_cases clock socket_id data w; simplify_eq; auto.
Qed.

Lemma C8_not_found_witness :
  emitted (place_bid ticking "s1" (mkPlaceBid 7 1000 (Some "A"))) (boot ticking) =
    [ToSocket "s1" (AuctionNotFound 7)] /\
  auctionItems (exec (place_bid ticking "s1" (mkPlaceBid 7 1000 (Some "A")))
                  (boot ticking)) = auctionItems (boot ticking) /\
  reads (exec (place_bid ticking "s1" (mkPlaceBid 7 1000 (Some "A"))) (boot ticking)) =
    reads (boot ticking).
Proof.
  apply (C8_not_found ticking "s1" (mkPlaceBid 7 1000 (Some "A")) (boot ticking)).
  repeat constructor; discriminate.
Defined.

(** C9 (name of the bidder).  For an accepted bid, the name written to
    [highestBidder] and to the appended history entry is the submitter's
    connection identifier when [bidderName] is absent or the empty
    string, and is [bidderName] itself when it is a non-empty string, one
    made of white space included. *)
Theorem C9_bidder_name clock socket_id data w :
  accepted clock socket_id data w ->
  exists ref a' b,
    lookup_auction (auctionId data)
      (auctionItems (exec (place_bid clock socket_id data) w)) = Some (ref, a') /\
    last (bidHistory a') = Some b /\
    (bidderName data = None \/ bidderName data = Some "" ->
     highestBidder a' = Some socket_id /\ bidder b = socket_id) /\
    (forall name, bidderName data = Some name -> name <> "" ->
     highestBidder a' = Some name /\ bidder b = name).
Proof.
  intros (ref & a & _ & _ & _ & _ & Hlk')%accepted_inv.
  exists ref, (applied socket_id data (clock (S (reads w))) a),
    (mkBid (bidAmount data) (or_socket_id (bidderName data) socket_id)
       (clock (S (reads w)))).
  split_and!; [exact Hlk'|apply last_snoc| |]; cbn.
  - intros [->| ->]; auto.
  - intros name -> Hne. destruct name; [congruence|auto].
Qed.

Lemma C9_bidder_name_witness :
  (exists ref a' b,
     lookup_auction 2
       (auctionItems (exec (place_bid ticking "Kx3f" (mkPlaceBid 2 510 (Some "")))
                        (boot ticking))) = Some (ref, a') /\
     last (bidHistory a') = Some b /\
     highestBidder a' = Some "Kx3f" /\ bidder b = "Kx3f") /\
  (exists ref a' b,
     lookup_auction 2
       (auctionItems (exec (place_bid ticking "Kx3f" (mkPlaceBid 2 510 (Some "Bea")))
                        (boot ticking))) = Some (ref, a') /\
     last (bidHistory a') = Some b /\
     highestBidder a' = Some "Bea" /\ bidder b = "Bea").
Proof.
  split.
  - destruct (C9_bidder_name ticking "Kx3f" (mkPlaceBid 2 510 (Some "")) (boot ticking))
      as (ref & a' & b & Hlk & Hlast & Hblank & _).
    { exists (applied "Kx3f" (mkPlaceBid 2 510 (Some "")) 5 (designer_watch ticking)).
      reflexivity. }
    exists ref, a', b. split_and!; [exact Hlk|exact Hlast|apply Hblank..]; right; reflexivity.
  - destruct (C9_bidder_name ticking "Kx3f" (mkPlaceBid 2 510 (Some "Bea")) (boot ticking))
      as (ref & a' & b & Hlk & Hlast & _ & Hname).
    { exists (applied "Kx3f" (mkPlaceBid 2 510 (Some "Bea")) 5 (designer_watch ticking)).
      reflexivity. }
    exists ref, a', b.
    split_and!; [exact Hlk|exact Hlast|apply (Hname "Bea")..];
      reflexivity || discriminate.
Defined.

(** C9, blank read as white space refuted.  A name of three spaces is
    blank, and an accepted bid that carries it records the three spaces,
    not the connection identifier. *)
Lemma C9_spaces_are_recorded :
  blank "   " = true /\
  accepted ticking "socket-1" (mkPlaceBid 1 160 (Some "   ")) (boot ticking) /\
  lookup_auction 1
    (auctionItems (exec (place_bid ticking "socket-1" (mkPlaceBid 1 160 (Some "   ")))
                     (boot ticking))) =
    Some (0%nat,
          mkAuction 1 "Vintage Camera" "Classic 35mm film camera in excellent condition"
            "https://images.unsplash.com/photo-1526170375885-4d8ecf77b99f?w=400"
            160 10 900000 (Some "   ") [mkBid 160 "   " 5]) /\
  "   " <> "socket-1".
Proof.
  split_and!.
  - reflexivity.
  - exists (applied "socket-1" (mkPlaceBid 1 160 (Some "   ")) 5 (vintage_camera ticking)).
    reflexivity.
  - reflexivity.
  - discriminate.
Qed.

(** A name made of spaces is a non-empty string: it is recorded as it is. *)
Remark spaces_are_a_name socket_id :
  or_socket_id (Some "   ") socket_id = "   ".
Proof. reflexivity. Qed.

(** C10 (frame).  One run of the handler, accepted or not, keeps the
    number of auctions; keeps [id], [title], [description], [image],
    [minimumIncrement] and [endTime] of every auction, so that an accepted
    bid assigns only [currentBid], [highestBidder] and [bidHistory]; and
    leaves every object other than the looked-up one, in particular every
    auction with another identifier, as it was.  A run that is not
    accepted leaves the whole store as it was. *)
Theorem C10_frame clock socket_id data w :
  Forall2 same_static (auctionItems w)
    (auctionItems (exec (place_bid clock socket_id data) w)) /\
  (forall j a,
     auctionItems w !! j = Some a -> id a <> auctionId data ->
     auctionItems (exec (place_bid clock socket_id data) w) !! j = Some a) /\
  (forall ref a j,
     lookup_auction (auctionId data) (auctionItems w) = Some (ref, a) -> j <> ref ->
     auctionItems (exec (place_bid clock socket_id data) w) !! j = auctionItems w !! j) /\
  (~ accepted clock socket_id data w ->
   auctionItems (exec (place_bid clock socket_id data) w) = auctionItems w).
Proof.
  split_and!.
  - eapply Forall2_impl; [apply (handle_grows clock (PlaceBidEvent socket_id data) w)|].
    now intros a a' [Hs _].
  - intros j a Hj Hid.
    outcome_cases clock socket_id data w; rewrite Hi; auto.
    apply lookup_auction_Some in Hf as [Hlk Hid'].
    rewrite list_lookup_insert_ne; [exact Hj|]. intros ->. congruence.
  - intros ref a j Hlk Hne.
    outcome_cases clock socket_id data w; rewrite Hi; auto. simplify_eq.
    now apply list_lookup_insert_ne.
  - apply not_accepted_store.
Qed.

Lemma C10_frame_witness :
  auctionItems (exec (place_bid ticking "s1" (mkPlaceBid 1 160 (Some "A"))) (boot ticking))
    !! 3%nat = Some (antique_desk_lamp ticking) /\
  auctionItems (exec (place_bid ticking "s1" (mkPlaceBid 1 160 (Some "A"))) (boot ticking))
    !! 1%nat = auctionItems (boot ticking) !! 1%nat /\
  auctionItems (exec (place_bid ticking "s1" (mkPlaceBid 3 1 (Some "A"))) (boot ticking)) =
    auctionItems (boot ticking).
Proof.
  split_and!.
  - apply (proj1 (proj2 (C10_frame ticking "s1" (mkPlaceBid 1 160 (Some "A")) (boot ticking)))).
    + reflexivity.
    + discriminate.
  - apply (proj1 (proj2 (proj2
             (C10_frame ticking "s1" (mkPlaceBid 1 160 (Some "A")) (boot ticking))))
             0%nat (vintage_camera ticking)).
    + reflexivity.
    + discriminate.
  - apply (proj2 (proj2 (proj2
             (C10_frame ticking "s1" (mkPlaceBid 3 1 (Some "A")) (boot ticking))))).
    intros [a' Ha']. vm_compute in Ha'. discriminate.
Defined.

(** * Further properties of the server *)

(** ** Helper lemmas *)

Lemma history_entries_insert items ref a a' :
  items !! ref = Some a ->
  length (bidHistory a') = S (length (bidHistory a)) ->
  history_entries (<[ref := a']> items) = S (history_entries items).
Proof.
  unfold history_entries. revert ref.
  induction items as [|x items IH]; intros [|ref] Hlk Hlen; try discriminate.
  - injection Hlk as ->. cbn. lia.
  - cbn in Hlk. specialize (IH ref Hlk Hlen).
    change (<[S ref:=a']> (x :: items)) with (x :: <[ref:=a']> items).
    change (sum_list_with ?f (?y :: ?l)) with (f y + sum_list_with f l)%nat.
    rewrite IH. cbn. lia.
Qed.

Lemma applied_history_length socket_id data stamp a :
  length (bidHistory (applied socket_id data stamp a)) = S (length (bidHistory a)).
Proof. cbn. rewrite length_app. cbn. lia. Qed.

Lemma confirmations_app l k :
  confirmations (l ++ k) = (confirmations l + confirmations k)%nat.
Proof. apply sum_list_with_app. Qed.

Lemma updates_app l k : updates (l ++ k) = (updates l + updates k)%nat.
Proof. apply sum_list_with_app. Qed.

(** One run of the bid handler: the confirmations, the updates and the
    history entries grow together. *)
Lemma place_bid_counts clock socket_id data w :
  exists n : nat,
    history_entries (auctionItems (exec (place_bid clock socket_id data) w)) =
      (history_entries (auctionItems w) + n)%nat /\
    confirmations (emitted (place_bid clock socket_id data) w) = n /\
    updates (emitted (place_bid clock socket_id data) w) = n.
Proof.
  outcome_cases clock socket_id data w; rewrite Hi, He.
  1-3: exists 0%nat; split_and!; [lia|reflexivity|reflexivity].
  exists 1%nat. split_and!; [|reflexivity|reflexivity].
  apply lookup_auction_Some in Hf as [Hlk _].
  rewrite (history_entries_insert _ _ _ _ Hlk (applied_history_length _ _ _ _)). lia.
Qed.

(** Every handler only appends to the log. *)
Lemma handle_sent clock t w :
  sent (exec (handle clock t) w) = sent w ++ emitted (handle clock t) w.
Proof.
  assert (exists out, sent (exec (handle clock t) w) = sent w ++ out) as [out Hout].
  { destruct t as [s|s d| | |]; cbn; eauto.
    destruct (lookup_auction (auctionId d) (auctionItems w)) as [[ref a]|] eqn:Hf.
    - destruct (Z_lt_le_dec (clock (reads w)) (endTime a)) as [Hopen|Hend].
      + destruct (Z_lt_le_dec (bidAmount d) (currentBid a + minimumIncrement a))
          as [Hlow|Hok]; unfold exec.
        * rewrite (place_bid_too_low _ _ _ _ _ _ Hf Hopen Hlow). cbn. eauto.
        * rewrite (place_bid_accepted _ _ _ _ _ _ Hf Hopen Hok). cbn. eauto.
      + unfold exec. rewrite (place_bid_ended _ _ _ _ _ _ Hf Hend). cbn. eauto.
    - unfold exec. rewrite (place_bid_not_found _ _ _ _ Hf). cbn. eauto. }
  now rewrite (emitted_app _ _ _ Hout).
Qed.

Lemma handle_counts clock t w :
  exists n : nat,
    history_entries (auctionItems (exec (handle clock t) w)) =
      (history_entries (auctionItems w) + n)%nat /\
    confirmations (sent (exec (handle clock t) w)) = (confirmations (sent w) + n)%nat /\
    updates (sent (exec (handle clock t) w)) = (updates (sent w) + n)%nat.
Proof.
  rewrite handle_sent, confirmations_app, updates_app.
  destruct t as [s|s d| | |].
  2: { destruct (place_bid_counts clock s d w) as (n & H1 & H2 & H3).
       exists n. cbn [handle]. rewrite H1, H2, H3. auto. }
  all: exists 0%nat; erewrite emitted_app by (cbn; reflexivity);
    split_and!; [now rewrite Nat.add_0_r|reflexivity|reflexivity].
Qed.

Lemma run_counts clock ts w :
  exists n : nat,
    history_entries (auctionItems (run clock ts w)) =
      (history_entries (auctionItems w) + n)%nat /\
    confirmations (sent (run clock ts w)) = (confirmations (sent w) + n)%nat /\
    updates (sent (run clock ts w)) = (updates (sent w) + n)%nat.
Proof.
  revert w. induction ts as [|t ts IH]; intros w; cbn.
  - exists 0%nat. lia.
  - destruct (handle_counts clock t w) as (n & H1 & H2 & H3).
    destruct (IH (exec (handle clock t) w)) as (m & G1 & G2 & G3).
    exists (n + m)%nat. lia.
Qed.

(** X1.  The store changes exactly when the task is a ['place-bid'] that
    is accepted: connections, HTTP requests, timer ticks and rejected bids
    leave it as it was, and an accepted bid never leaves it as it was. *)
Theorem store_changes_iff_accepted clock t w :
  auctionItems (exec (handle clock t) w) <> auctionItems w <->
  exists socket_id data, t = PlaceBidEvent socket_id data /\ accepted clock socket_id data w.
Proof.
  split.
  - intros Hne. destruct t as [s|s d| | |]; cbn in Hne; try congruence.
    exists s, d. split; [reflexivity|].
    outcome_cases clock s d w; try congruence.
    apply accepted_iff. eauto.
  - intros (s & d & -> & (ref & a & Hlk & _ & _ & Hi & _)%accepted_inv). cbn.
    rewrite Hi. intros Heq.
    apply lookup_auction_Some in Hlk as [Hlk _].
    pose proof (history_entries_insert _ _ _ _ Hlk
                  (applied_history_length s d (clock (S (reads w))) a)) as Hn.
    rewrite Heq in Hn. lia.
Qed.

(** X2.  No accepted bid is lost and none is invented: over any run, the
    number of history entries in the store grows by the number of
    ['bid-success'] confirmations sent, which is the number of
    ['auction-update'] broadcasts; and a party that connects then is sent,
    on its own socket, the clock reading and exactly this store. *)
Theorem snapshot_counts_accepted_bids clock ts w socket_id :
  (history_entries (auctionItems (run clock ts w)) + confirmations (sent w) =
   history_entries (auctionItems w) + confirmations (sent (run clock ts w)))%nat /\
  (updates (sent (run clock ts w)) + confirmations (sent w) =
   updates (sent w) + confirmations (sent (run clock ts w)))%nat /\
  emitted (on_connection clock socket_id) (run clock ts w) =
    [ToSocket socket_id
       (initial_sync (clock (reads (run clock ts w))) (auctionItems (run clock ts w)))] /\
  auctionItems (exec (on_connection clock socket_id) (run clock ts w)) =
    auctionItems (run clock ts w).
Proof.
  destruct (run_counts clock ts w) as (n & H1 & H2 & H3).
  split_and!; try lia.
  - apply emitted_app. reflexivity.
  - reflexivity.
Qed.

Lemma updates_confirmed_app_aux k l :
  (updates_confirmed l = true ->
   updates_confirmed (l ++ k) = updates_confirmed k) /\
  (forall x, updates_confirmed (x :: l) = true ->
   updates_confirmed ((x :: l) ++ k) = updates_confirmed k).
Proof.
  induction l as [|y l [IH1 IH2]].
  - split; [reflexivity|]. intros [s p|p|p]; destruct p; cbn; congruence.
  - split; [apply IH2|].
    intros [s p|p|p] Hx; destruct p; cbn in Hx |- *; try discriminate;
      try (apply (IH2 y Hx)).
    destruct y as [s' p'|p'|p']; try discriminate.
    destruct p'; try discriminate.
    apply andb_true_iff in Hx as [Hx Hl]. rewrite Hx. cbn. apply IH1, Hl.
Qed.

Lemma updates_confirmed_app l k :
  updates_confirmed l = true -> updates_confirmed k = true ->
  updates_confirmed (l ++ k) = true.
Proof.
  intros Hl Hk. rewrite (proj1 (updates_confirmed_app_aux k l) Hl). exact Hk.
Qed.

(** What one run of a handler emits is well addressed, and its updates are
    confirmed. *)
Lemma handle_emits_well clock t w :
  forallb well_addressed (emitted (handle clock t) w) = true /\
  updates_confirmed (emitted (handle clock t) w) = true.
Proof.
  destruct t as [s|s d| | |].
  2: { cbn [handle]. outcome_cases clock s d w; rewrite He; cbn; auto.
       rewrite !Z.eqb_refl. auto. }
  all: erewrite emitted_app by (cbn; reflexivity); auto.
Qed.

(** X3.  The log of the server keeps its shape over any run: errors,
    confirmations and the initial synchronisation go to one socket only,
    updates and clock ticks go to all, and every ['auction-update']
    broadcast is directly followed by the ['bid-success'] confirmation of
    the same auction and price, there being no other confirmation. *)
Theorem log_keeps_its_shape clock ts w :
  forallb well_addressed (sent w) = true ->
  updates_confirmed (sent w) = true ->
  forallb well_addressed (sent (run clock ts w)) = true /\
  updates_confirmed (sent (run clock ts w)) = true.
Proof.
  revert w. induction ts as [|t ts IH]; intros w Hw Hu; cbn; [auto|].
  destruct (handle_emits_well clock t w) as [Hw' Hu'].
  apply IH; rewrite handle_sent.
  - rewrite forallb_app, Hw, Hw'. reflexivity.
  - now apply updates_confirmed_app.
Qed.

Lemma log_keeps_its_shape_witness :
  forallb well_addressed
    (sent (run ticking
             [Connection "s1"; PlaceBidEvent "s1" (mkPlaceBid 1 160 None);
              PlaceBidEvent "s2" (mkPlaceBid 1 165 (Some "B")); TimerTick; GetHealth;
              PlaceBidEvent "s2" (mkPlaceBid 9 165 (Some "B")); GetAuctions]
             (boot ticking))) = true /\
  updates_confirmed
    (sent (run ticking
             [Connection "s1"; PlaceBidEvent "s1" (mkPlaceBid 1 160 None);
              PlaceBidEvent "s2" (mkPlaceBid 1 165 (Some "B")); TimerTick; GetHealth;
              PlaceBidEvent "s2" (mkPlaceBid 9 165 (Some "B")); GetAuctions]
             (boot ticking))) = true.
Proof.
  apply (log_keeps_its_shape ticking _ (boot ticking)); reflexivity.
Defined.

(** A handler never makes the call counter of the clock go back. *)
Lemma handle_reads clock t w :
  (reads w <= reads (exec (handle clock t) w))%nat.
Proof.
  destruct t as [s|s d| | |]; cbn; try lia.
  outcome_cases clock s d w; rewrite Hn; lia.
Qed.

Lemma handle_keeps_ended clock t w ref a :
  monotone clock ->
  auctionItems w !! ref = Some a ->
  endTime a <= clock (reads w) ->
  auctionItems (exec (handle clock t) w) !! ref = Some a.
Proof.
  intros Hm Hat Hdead.
  destruct t as [s|s d| | |]; cbn; auto.
  outcome_cases clock s d w; rewrite Hi; auto.
  apply lookup_auction_Some in Hf as [Hat' _].
  destruct (decide (ref' = ref)) as [->|Hne].
  - simplify_eq. lia.
  - now rewrite list_lookup_insert_ne.
Qed.

Lemma run_keeps_ended clock ts w ref a :
  monotone clock ->
  auctionItems w !! ref = Some a ->
  endTime a <= clock (reads w) ->
  auctionItems (run clock ts w) !! ref = Some a /\
  endTime a <= clock (reads (run clock ts w)).
Proof.
  intros Hm. revert w. induction ts as [|t ts IH]; intros w Hat Hdead; cbn; [auto|].
  apply IH.
  - now apply handle_keeps_ended.
  - pose proof (Hm _ _ (handle_reads clock t w)). lia.
Qed.

(** X4.  With a clock that never goes back, an auction whose deadline has
    been reached is frozen: whatever is handled afterwards, the object
    stays as it is, and every later bid that resolves to it is answered
    with [AuctionEnded]. *)
Theorem ended_auction_is_frozen clock ts w ref a :
  monotone clock ->
  auctionItems w !! ref = Some a ->
  endTime a <= clock (reads w) ->
  auctionItems (run clock ts w) !! ref = Some a /\
  (forall socket_id data,
     lookup_auction (auctionId data) (auctionItems (run clock ts w)) = Some (ref, a) ->
     emitted (place_bid clock socket_id data) (run clock ts w) =
       [ToSocket socket_id (AuctionEnded (auctionId data))]).
Proof.
  intros Hm Hat Hdead.
  destruct (run_keeps_ended clock ts w ref a Hm Hat Hdead) as [Hat' Hdead'].
  split; [exact Hat'|]. intros s d Hf'.
  outcome_cases clock s d (run clock ts w); simplify_eq; try lia. exact He.
Qed.

Lemma ended_auction_is_frozen_witness :
  auctionItems
    (run at_deadline
       [PlaceBidEvent "s1" (mkPlaceBid 1 500 (Some "A")); TimerTick;
        PlaceBidEvent "s2" (mkPlaceBid 2 510 (Some "B"));
        PlaceBidEvent "s1" (mkPlaceBid 1 1000 (Some "A"))]
       (boot at_deadline)) !! 0%nat = Some (vintage_camera at_deadline) /\
  (forall socket_id data,
     lookup_auction (auctionId data)
       (auctionItems
          (run at_deadline
             [PlaceBidEvent "s1" (mkPlaceBid 1 500 (Some "A")); TimerTick;
              PlaceBidEvent "s2" (mkPlaceBid 2 510 (Some "B"));
              PlaceBidEvent "s1" (mkPlaceBid 1 1000 (Some "A"))]
             (boot at_deadline))) = Some (0%nat, vintage_camera at_deadline) ->
     emitted (place_bid at_deadline socket_id data)
       (run at_deadline
          [PlaceBidEvent "s1" (mkPlaceBid 1 500 (Some "A")); TimerTick;
           PlaceBidEvent "s2" (mkPlaceBid 2 510 (Some "B"));
           PlaceBidEvent "s1" (mkPlaceBid 1 1000 (Some "A"))]
          (boot at_deadline)) =
       [ToSocket socket_id (AuctionEnded (auctionId data))]).
Proof.
  apply (ended_auction_is_frozen at_deadline _ (boot at_deadline)).
  - intros i j Hij. unfold at_deadline.
    destruct (Nat.ltb_spec i 4), (Nat.ltb_spec j 4); lia.
  - reflexivity.
  - vm_compute. discriminate.
Defined.

(** ** Prices along a history *)

Lemma spaced_lower seed inc h k b :
  spaced seed inc h -> h !! k = Some b ->
  seed + (Z.of_nat k + 1) * inc <= amount b.
Proof.
  intros [H0 Hs]. revert b. induction k as [|k IH]; intros b Hk.
  - specialize (H0 b Hk). lia.
  - destruct (lookup_lt_is_Some_2 h k) as [b1 Hk1].
    { apply lookup_lt_Some in Hk. lia. }
    specialize (IH b1 Hk1). specialize (Hs k b1 b Hk1 Hk). lia.
Qed.



(** ** Identifiers *)

Lemma lookup_auction_same_ids auctionId (l l' : list Auction) :
  Forall2 (fun a a' => id a' = id a) l l' ->
  fst <$> lookup_auction auctionId l' = fst <$> lookup_auction auctionId l.
Proof.
  unfold lookup_auction. induction 1 as [|a a' l l' Hid _ IH]; [reflexivity|].
  cbn. rewrite Hid. destruct (decide (id a = auctionId)); [reflexivity|].
  destruct (list_find _ l') as [[i x]|], (list_find _ l) as [[j y]|];
    cbn in *; congruence.
Qed.

(** X7.  No auction is ever added, removed, moved or renamed: after any
    run the store has as many auctions, each slot keeps its [id],
    [minimumIncrement] and [endTime], and an identifier resolves to the
    same slot as before, or to none as before. *)
Theorem identifiers_are_stable clock ts w auctionId :
  length (auctionItems (run clock ts w)) = length (auctionItems w) /\
  Forall2 same_static (auctionItems w) (auctionItems (run clock ts w)) /\
  fst <$> lookup_auction auctionId (auctionItems (run clock ts w)) =
    fst <$> lookup_auction auctionId (auctionItems w).
Proof.
  pose proof (run_grows clock ts w) as G.
  assert (Forall2 same_static (auctionItems w) (auctionItems (run clock ts w))) as Hs.
  { eapply Forall2_impl; [exact G|]. now intros a a' [? _]. }
  split_and!.
  - symmetry. eapply Forall2_length, Hs.
  - exact Hs.
  - apply lookup_auction_same_ids.
    eapply Forall2_impl; [exact Hs|]. now intros a a' (? & _).
Qed.

(** ** Timestamps *)

Lemma stamps_sorted_snoc h b :
  stamps_sorted h ->
  (forall i b0, h !! i = Some b0 -> timestamp b0 <= timestamp b) ->
  stamps_sorted (h ++ [b]).
Proof.
  intros Hh Hb i j x y Hij Hi Hj.
  destruct (decide (j < length h)%nat) as [Hlt|Hge].
  - rewrite lookup_app_l in Hi, Hj by lia. eauto.
  - assert (j = length h) as ->.
    { apply lookup_lt_Some in Hj. rewrite length_app in Hj. cbn in Hj. lia. }
    rewrite lookup_app_r, Nat.sub_diag in Hj by lia. injection Hj as <-.
    destruct (decide (i < length h)%nat) as [Hlt|Hge'].
    + rewrite lookup_app_l in Hi by lia. eauto.
    + assert (i = length h) as -> by lia.
      rewrite lookup_app_r, Nat.sub_diag in Hi by lia. injection Hi as <-. lia.
Qed.

Lemma handle_stamps_sorted clock w0 t w :
  monotone clock ->
  Inv clock w0 w ->
  Forall (fun a => stamps_sorted (bidHistory a)) (auctionItems w) ->
  Forall (fun a => stamps_sorted (bidHistory a)) (auctionItems (exec (handle clock t) w)).
Proof.
  intros Hm [_ HF] Hso.
  destruct t as [s|s d| | |]; cbn; auto.
  outcome_cases clock s d w; rewrite Hi; auto.
  apply lookup_auction_Some in Hf as [Hat _].
  apply Forall_insert; [exact Hso|]. cbn.
  apply stamps_sorted_snoc.
  - exact (Forall_lookup_1 _ _ _ _ Hso Hat).
  - intros i b0 Hb0. cbn.
    destruct (Forall2_lookup_r _ _ _ _ _ HF Hat) as (a0 & _ & [_ _ _ _ Hst]).
    pose proof (Forall_lookup_1 _ _ _ _ Hst Hb0) as (k & _ & Hk & _ & ->).
    apply Hm. lia.
Qed.

Lemma run_stamps_sorted clock w0 ts w :
  monotone clock ->
  Inv clock w0 w ->
  Forall (fun a => stamps_sorted (bidHistory a)) (auctionItems w) ->
  Forall (fun a => stamps_sorted (bidHistory a)) (auctionItems (run clock ts w)).
Proof.
  intros Hm. revert w. induction ts as [|t ts IH]; intros w HI Hso; cbn; [exact Hso|].
  apply IH; [apply Inv_handle, HI|]. now apply (handle_stamps_sorted clock w0).
Qed.

(** X8.  With a clock that never goes back, every history is in order of
    acceptance by its timestamps too: in every state reached from a seeded
    store the timestamps never decrease along [bidHistory], and each one
    is at least the clock value its bid was checked against. *)
Theorem history_is_in_time_order clock w0 ts :
  monotone clock ->
  seeded w0 ->
  Forall
    (fun a =>
       stamps_sorted (bidHistory a) /\
       Forall (fun b => exists k : nat,
                 clock k < endTime a /\ clock k <= timestamp b /\
                 timestamp b = clock (S k))
         (bidHistory a))
    (auctionItems (run clock ts w0)).
Proof.
  intros Hm Hs.
  pose proof (reachable_Inv clock w0 ts Hs) as HI.
  assert (Forall (fun a => stamps_sorted (bidHistory a)) (auctionItems (run clock ts w0)))
    as Hso.
  { apply (run_stamps_sorted clock w0); [exact Hm|apply Inv_seed, Hs|].
    eapply Forall_impl; [exact Hs|]. intros a [_ ->] i j b b' _ Hi.
    rewrite lookup_nil in Hi. discriminate. }
  destruct HI as [_ HF].
  apply Forall_lookup. intros i a Hat. split.
  - exact (Forall_lookup_1 _ _ _ _ Hso Hat).
  - destruct (Forall2_lookup_r _ _ _ _ _ HF Hat) as (a0 & _ & [Hst _ _ _ Hstamp]).
    destruct Hst as (_ & _ & _ & _ & _ & ->).
    eapply Forall_impl; [exact Hstamp|].
    intros b (k & _ & _ & Hk & ->). exists k. split_and!; auto; apply Hm; lia.
Qed.

Lemma history_is_in_time_order_witness :
  Forall
    (fun a =>
       stamps_sorted (bidHistory a) /\
       Forall (fun b => exists k : nat,
                 ticking k < endTime a /\ ticking k <= timestamp b /\
                 timestamp b = ticking (S k))
         (bidHistory a))
    (auctionItems
       (run ticking
          [PlaceBidEvent "s1" (mkPlaceBid 1 160 (Some "A")); TimerTick;
           PlaceBidEvent "s2" (mkPlaceBid 1 170 (Some "B"))]
          (boot ticking))).
Proof.
  apply (history_is_in_time_order ticking (boot ticking)).
  - intros i j Hij. unfold ticking. lia.
  - repeat constructor.
Defined.

(** * Properties of the browser client *)

Lemma or_string_nonempty s : or_string s "Anonymous" <> "".
Proof. unfold or_string. destruct s; cbn; discriminate. Qed.

Lemma or_socket_id_name name socket_id :
  name <> "" -> or_socket_id (Some name) socket_id = name.
Proof. destruct name; [congruence|reflexivity]. Qed.

Lemma handlePlaceBid_Some trim app aid amt data :
  handlePlaceBid trim app aid amt = Some data ->
  data = mkPlaceBid aid amt (Some (currentBidder trim app)).
Proof.
  unfold handlePlaceBid, currentBidder. destruct (app_socket app); congruence.
Qed.

(** X9.  A bid placed through the client never reaches the fallback to
    the socket identifier: the request carries the trimmed input, or
    ["Anonymous"] when nothing is left of it, and when the server accepts
    it, this very name, which is the card's [currentBidder], is written to
    [highestBidder] and to the history entry, so that the bidder's own
    card counts as winning while the countdown is positive. *)
Theorem client_bid_records_the_display_name
    trim clock app aid amt data socket_id w :
  handlePlaceBid trim app aid amt = Some data ->
  accepted clock socket_id data w ->
  currentBidder trim app <> "" /\
  (trim (app_bidderName app) = "" -> currentBidder trim app = "Anonymous") /\
  (trim (app_bidderName app) <> "" ->
   currentBidder trim app = trim (app_bidderName app)) /\
  exists ref a' b,
    lookup_auction aid
      (auctionItems (exec (place_bid clock socket_id data) w)) = Some (ref, a') /\
    last (bidHistory a') = Some b /\
    highestBidder a' = Some (currentBidder trim app) /\
    bidder b = currentBidder trim app /\
    forall remainingTime, 0 < remainingTime ->
      isWinning a' (currentBidder trim app) remainingTime = true /\
      isOutbid a' (currentBidder trim app) remainingTime = false.
Proof.
  intros ->%handlePlaceBid_Some (ref & a & _ & _ & _ & _ & Hlk')%accepted_inv.
  pose proof (or_string_nonempty (trim (app_bidderName app))) as Hne.
  fold (currentBidder trim app) in Hne.
  split_and!; [exact Hne| | |].
  - unfold currentBidder. intros ->. reflexivity.
  - unfold currentBidder, or_string. destruct (trim (app_bidderName app)); cbn; congruence.
  - pose proof (or_socket_id_name _ socket_id Hne) as Hn.
    cbn [auctionId] in Hlk'.
    exists ref, (applied socket_id
                   (mkPlaceBid aid amt (Some (currentBidder trim app)))
                   (clock (S (reads w))) a),
      (mkBid amt (currentBidder trim app) (clock (S (reads w)))).
    unfold applied in *. cbn [bidHistory highestBidder bidderName bidAmount bidder] in *.
    rewrite Hn in *.
    split_and!; [exact Hlk'|apply last_snoc|reflexivity|reflexivity|].
    intros rt Hrt. unfold isWinning, isOutbid, isEnded.
    cbn [highestBidder].
    rewrite !bool_decide_eq_true_2 by reflexivity.
    destruct (Z.leb_spec rt 0); [lia|]. cbn. now rewrite andb_false_r.
Qed.

Lemma client_bid_records_the_display_name_witness :
  currentBidder trim_ascii (mkApp (Some "Kx3f") [] 0 "   " true) <> "" /\
  (trim_ascii "   " = "" ->
   currentBidder trim_ascii (mkApp (Some "Kx3f") [] 0 "   " true) = "Anonymous") /\
  (trim_ascii "   " <> "" ->
   currentBidder trim_ascii (mkApp (Some "Kx3f") [] 0 "   " true) = trim_ascii "   ") /\
  exists ref a' b,
    lookup_auction 1
      (auctionItems
         (exec (place_bid ticking "Kx3f" (mkPlaceBid 1 160 (Some "Anonymous")))
            (boot ticking))) = Some (ref, a') /\
    last (bidHistory a') = Some b /\
    highestBidder a' = Some (currentBidder trim_ascii (mkApp (Some "Kx3f") [] 0 "   " true)) /\
    bidder b = currentBidder trim_ascii (mkApp (Some "Kx3f") [] 0 "   " true) /\
    forall remainingTime, 0 < remainingTime ->
      isWinning a' (currentBidder trim_ascii (mkApp (Some "Kx3f") [] 0 "   " true))
        remainingTime = true /\
      isOutbid a' (currentBidder trim_ascii (mkApp (Some "Kx3f") [] 0 "   " true))
        remainingTime = false.
Proof.
  apply (client_bid_records_the_display_name trim_ascii ticking
           (mkApp (Some "Kx3f") [] 0 "   " true) 1 160
           (mkPlaceBid 1 160 (Some "Anonymous")) "Kx3f" (boot ticking)).
  - reflexivity.
  - exists (applied "Kx3f" (mkPlaceBid 1 160 (Some "Anonymous")) 5 (vintage_camera ticking)).
    reflexivity.
Defined.

(** Of an accepted bid, a client takes in the broadcast only. *)
Lemma receive_Accepted socket_id2 socket_id a' app :
  receive socket_id2 (Accepted socket_id a') app =
  on_event app
    (auction_update (id a') (currentBid a') (highestBidder a') (bidHistory a')).
Proof.
  unfold receive, Accepted. cbn.
  destruct (decide (socket_id = socket_id2)); reflexivity.
Qed.

(** X10.  The display name is no identity.  When two clients show the
    same [currentBidder], as any two do whose name input is blank, and the
    bid of the first is accepted, then after the broadcast the second
    client's copy of that auction names it as highest bidder too: its card
    counts as winning, not as outbid, while its countdown is positive. *)
Theorem same_name_clients_both_win
    trim clock app1 app2 aid amt data socket_id socket_id2 w remainingTime :
  currentBidder trim app2 = currentBidder trim app1 ->
  handlePlaceBid trim app1 aid amt = Some data ->
  accepted clock socket_id data w ->
  0 < remainingTime ->
  Forall
    (fun c =>
       id c = aid ->
       currentBid c = amt /\
       highestBidder c = Some (currentBidder trim app2) /\
       isWinning c (currentBidder trim app2) remainingTime = true /\
       isOutbid c (currentBidder trim app2) remainingTime = false)
    (app_auctions
       (receive socket_id2 (emitted (place_bid clock socket_id data) w) app2)).
Proof.
  intros Hsame ->%handlePlaceBid_Some Hacc Hrt.
  pose proof (or_string_nonempty (trim (app_bidderName app1))) as Hne.
  fold (currentBidder trim app1) in Hne.
  pose proof (or_socket_id_name _ socket_id Hne) as Hn.
  apply accepted_iff in Hacc as (ref & a & Hlk & Ho & Hk).
  destruct (place_bid_accept clock socket_id _ w ref a Hlk Ho Hk) as (_ & _ & He & _).
  apply lookup_auction_Some in Hlk as [_ Hid]. cbn [auctionId] in Hid.
  rewrite He, receive_Accepted.
  unfold applied. cbn [on_event app_auctions id currentBid highestBidder bidderName bidAmount].
  rewrite Hn, Hid, <- Hsame.
  apply Forall_fmap, Forall_forall. intros c _. unfold compose. cbn beta.
  destruct (decide (id c = aid)) as [_|Hno]; [|intros; contradiction].
  intros _. unfold isWinning, isOutbid, isEnded.
  cbn [with_bid id currentBid highestBidder].
  rewrite !bool_decide_eq_true_2 by reflexivity.
  destruct (Z.leb_spec remainingTime 0); [lia|].
  rewrite Hsame. destruct (currentBidder trim app1); [congruence|]. auto.
Qed.

Lemma same_name_clients_both_win_witness :
  Forall
    (fun c =>
       id c = 1 ->
       currentBid c = 160 /\
       highestBidder c =
         Some (currentBidder trim_ascii
                 (mkApp (Some "Qm8z") (auctionItems (boot ticking)) 4 "" true)) /\
       isWinning c
         (currentBidder trim_ascii
            (mkApp (Some "Qm8z") (auctionItems (boot ticking)) 4 "" true)) 1000 = true /\
       isOutbid c
         (currentBidder trim_ascii
            (mkApp (Some "Qm8z") (auctionItems (boot ticking)) 4 "" true)) 1000 = false)
    (app_auctions
       (receive "Qm8z"
          (emitted (place_bid ticking "Kx3f" (mkPlaceBid 1 160 (Some "Anonymous")))
             (boot ticking))
          (mkApp (Some "Qm8z") (auctionItems (boot ticking)) 4 "" true))).
Proof.
  apply (same_name_clients_both_win trim_ascii ticking
           (mkApp (Some "Kx3f") (auctionItems (boot ticking)) 4 " " true)
           (mkApp (Some "Qm8z") (auctionItems (boot ticking)) 4 "" true)
           1 160 (mkPlaceBid 1 160 (Some "Anonymous")) "Kx3f" "Qm8z" (boot ticking) 1000).
  - reflexivity.
  - reflexivity.
  - exists (applied "Kx3f" (mkPlaceBid 1 160 (Some "Anonymous")) 5 (vintage_camera ticking)).
    reflexivity.
  - reflexivity.
Defined.

(** X12.  The countdown does not use the browser's clock: what the
    one-second interval computes is what [updateTimer] computes from the
    last server time received, whatever the local clock reads.  A card
    counts as ended exactly when that server time has reached [endTime],
    which is when the server, reading the same time, answers a bid on this
    auction with [AuctionEnded]. *)
Theorem countdown_follows_the_server_time
    clock socket_id data w ref auction now :
  lookup_auction (auctionId data) (auctionItems w) = Some (ref, auction) ->
  interval_callback auction (clock (reads w)) now = updateTimer auction (clock (reads w)) /\
  (isEnded (updateTimer auction (clock (reads w))) = true <->
   endTime auction <= clock (reads w)) /\
  (isEnded (interval_callback auction (clock (reads w)) now) = true <->
   emitted (place_bid clock socket_id data) w =
     [ToSocket socket_id (AuctionEnded (auctionId data))]).
Proof.
  intros Hlk.
  assert (interval_callback auction (clock (reads w)) now =
          updateTimer auction (clock (reads w))) as Hsame.
  { unfold interval_callback, updateTimer. f_equal. lia. }
  assert (isEnded (updateTimer auction (clock (reads w))) = true <->
          endTime auction <= clock (reads w)) as Hended.
  { unfold isEnded, updateTimer. rewrite Z.leb_le. lia. }
  split_and!; [exact Hsame|exact Hended|].
  rewrite Hsame, Hended.
  outcome_cases clock socket_id data w; simplify_eq; rewrite He; unfold_outcomes;
    split; intros; try lia; try discriminate; auto.
Qed.

Lemma countdown_follows_the_server_time_witness :
  interval_callback (vintage_camera at_deadline) (at_deadline 4%nat) 123456789 =
    updateTimer (vintage_camera at_deadline) (at_deadline 4%nat) /\
  (isEnded (updateTimer (vintage_camera at_deadline) (at_deadline 4%nat)) = true <->
   endTime (vintage_camera at_deadline) <= at_deadline 4%nat) /\
  (isEnded (interval_callback (vintage_camera at_deadline) (at_deadline 4%nat) 123456789) = true <->
   emitted (place_bid at_deadline "Kx3f" (mkPlaceBid 1 1000 None)) (boot at_deadline) =
     [ToSocket "Kx3f" (AuctionEnded 1)]).
Proof.
  exact (countdown_follows_the_server_time at_deadline "Kx3f" (mkPlaceBid 1 1000 None)
           (boot at_deadline) 0%nat (vintage_camera at_deadline) 123456789 eq_refl).
Defined.

(** ** The countdown text *)

Lemma string_app_length a b :
  String.length (a +:+ b) = (String.length a + String.length b)%nat.
Proof. induction a as [|c a IH]; [reflexivity|]. cbn. now rewrite <- IH. Qed.

Lemma string_app_inj_r a a' b b' :
  String.length b = String.length b' ->
  a +:+ b = a' +:+ b' -> a = a' /\ b = b'.
Proof.
  revert a'. induction a as [|c a IH]; intros [|c' a'] Hlen Heq.
  - auto.
  - apply (f_equal String.length) in Heq.
    rewrite !string_app_length in Heq. cbn [String.length] in Heq. lia.
  - apply (f_equal String.length) in Heq.
    rewrite !string_app_length in Heq. cbn [String.length] in Heq. lia.
  - injection Heq as -> Heq. destruct (IH a' Hlen Heq) as [-> ->]. auto.
Qed.

(** The seconds of a minute are written with two digits. *)
Lemma seconds_text s :
  0 <= s < 60 ->
  String.length (padStart 2 "0" (pretty s)) = 2%nat /\
  two_digits_value (padStart 2 "0" (pretty s)) = Some s.
Proof.
  intros Hs.
  assert (exists n : nat, s = Z.of_nat n /\ (n < 60)%nat) as (n & -> & Hn).
  { exists (Z.to_nat s). lia. }
  do 60 (destruct n as [|n]; [vm_compute; auto|]). lia.
Qed.

(** X13.  The countdown text of a non-negative time is minutes, a colon
    and two digits of seconds below sixty, and it shows exactly the whole
    seconds: two times have the same text if and only if they fall in the
    same second. *)
Theorem formatTime_shows_whole_seconds ms1 ms2 :
  0 <= ms1 -> 0 <= ms2 ->
  (exists ss,
     formatTime ms1 = pretty (ms1 / 60000) +:+ ":" +:+ ss /\
     String.length ss = 2%nat /\
     two_digits_value ss = Some ((ms1 / 1000) mod 60)) /\
  (formatTime ms1 = formatTime ms2 <-> ms1 / 1000 = ms2 / 1000).
Proof.
  intros H1 H2.
  assert (forall ms, 0 <= ms ->
            0 <= Z.rem (ms / 1000) 60 < 60 /\
            Z.rem (ms / 1000) 60 = (ms / 1000) mod 60 /\
            ms / 1000 / 60 = ms / 60000) as Hr.
  { intros ms Hms.
    assert (0 <= ms / 1000) by (apply Z.div_pos; lia).
    rewrite Z.rem_mod_nonneg by lia. rewrite Z.div_div by lia.
    pose proof (Z.mod_pos_bound (ms / 1000) 60).
    split_and!; try reflexivity; lia. }
  split.
  - destruct (Hr ms1 H1) as (Hb & Hm & Hd). destruct (seconds_text _ Hb) as [Hl Hv].
    exists (padStart 2 "0" (pretty (Z.rem (ms1 / 1000) 60))).
    unfold formatTime. cbn zeta. rewrite Hd, <- Hm. auto.
  - split; [|unfold formatTime; now intros ->].
    destruct (Hr ms1 H1) as (Hb1 & Hm1 & _), (Hr ms2 H2) as (Hb2 & Hm2 & _).
    destruct (seconds_text _ Hb1) as [Hl1 Hv1], (seconds_text _ Hb2) as [Hl2 Hv2].
    unfold formatTime. cbn zeta. intros Heq.
    apply string_app_inj_r in Heq as [Hmin Hsec].
    2: { now rewrite !string_app_length, Hl1, Hl2. }
    apply (inj pretty) in Hmin. apply String.app_inj in Hsec.
    rewrite Hsec in Hv1. rewrite Hv1 in Hv2. injection Hv2 as Hv.
    rewrite (Z.div_mod (ms1 / 1000) 60), (Z.div_mod (ms2 / 1000) 60) by lia.
    rewrite <- Hm1, <- Hm2, Hmin, Hv. reflexivity.
Qed.

Lemma formatTime_shows_whole_seconds_witness :
  (exists ss,
     formatTime 65999 = pretty (65999 / 60000) +:+ ":" +:+ ss /\
     String.length ss = 2%nat /\
     two_digits_value ss = Some ((65999 / 1000) mod 60)) /\
  (formatTime 65999 = formatTime 65000 <-> 65999 / 1000 = 65000 / 1000).
Proof.
  apply (formatTime_shows_whole_seconds 65999 65000); vm_compute; discriminate.
Defined.

(** ** The client's copy of the store *)

Lemma run_sent clock ts w :
  sent (run clock ts w) = sent w ++ emitted_by_run clock ts w.
Proof.
  unfold emitted_by_run. revert w. induction ts as [|t ts IH]; intros w; cbn.
  - now rewrite drop_all, app_nil_r.
  - rewrite IH, handle_sent, <- app_assoc. now rewrite drop_app_length.
Qed.

Lemma emitted_by_run_cons clock t ts w :
  emitted_by_run clock (t :: ts) w =
  emitted (handle clock t) w ++ emitted_by_run clock ts (exec (handle clock t) w).
Proof.
  unfold emitted_by_run at 1. cbn [run].
  rewrite run_sent, handle_sent, <- app_assoc. apply drop_app_length.
Qed.

Lemma receive_app socket_id l k app :
  receive socket_id (l ++ k) app = receive socket_id k (receive socket_id l app).
Proof. apply fold_left_app. Qed.

Lemma shows_refl a : shows a a.
Proof. split_and!; auto using same_static_refl. Qed.

Lemma ids_of_same_static (l l' : list Auction) :
  Forall2 same_static l l' -> id <$> l' = id <$> l.
Proof. induction 1 as [|a a' l l' (Hid & _) _ IH]; cbn; congruence. Qed.

(** The update listener and the assignment on the server do the same to
    stores that agree, identifiers being unique. *)
Lemma update_mirrors_insert (cs items : list Auction) ref a a' :
  NoDup (id <$> items) ->
  items !! ref = Some a ->
  same_static a a' ->
  Forall2 shows cs items ->
  Forall2 shows
    ((fun c => if decide (id c = id a')
               then with_bid (currentBid a') (highestBidder a') c else c) <$> cs)
    (<[ref := a']> items).
Proof.
  intros Hnd Hat Hst HF.
  destruct Hst as (Hid & Ht & Hdes & Him & Hinc & Hend).
  apply Forall2_same_length_lookup. split.
  - rewrite length_fmap, length_insert. eapply Forall2_length, HF.
  - intros i x y Hx Hy.
    rewrite list_lookup_fmap in Hx.
    destruct (cs !! i) as [c|] eqn:Hc; [|discriminate]. injection Hx as <-.
    destruct (decide (i = ref)) as [->|Hne].
    + rewrite list_lookup_insert_eq in Hy by (now apply lookup_lt_Some in Hat).
      injection Hy as <-.
      pose proof (Forall2_lookup_lr _ _ _ _ _ _ HF Hc Hat)
        as ((Hid' & Ht' & Hdes' & Him' & Hinc' & Hend') & _ & _).
      rewrite decide_True by congruence.
      unfold shows, same_static. cbn. split_and!; congruence.
    + rewrite list_lookup_insert_ne in Hy by congruence.
      pose proof (Forall2_lookup_lr _ _ _ _ _ _ HF Hc Hy) as Hsh.
      rewrite decide_False; [exact Hsh|].
      destruct Hsh as ((Hid' & _) & _ & _). intros Heq.
      apply Hne. apply (NoDup_lookup (id <$> items) i ref (id y)); [exact Hnd|..].
      * now rewrite list_lookup_fmap, Hy.
      * rewrite list_lookup_fmap, Hat. cbn. congruence.
Qed.

(** What a client takes in of one run of a handler. *)
Lemma handle_mirror clock socket_id t w app :
  NoDup (id <$> auctionItems w) ->
  Forall2 shows (app_auctions app) (auctionItems w) ->
  Forall2 shows
    (app_auctions (receive socket_id (emitted (handle clock t) w) app))
    (auctionItems (exec (handle clock t) w)).
Proof.
  intros Hnd HF. destruct t as [s|s d| | |].
  2: { cbn [handle]. outcome_cases clock s d w; rewrite He, Hi.
       1-3: unfold receive; cbn; destruct (decide (s = socket_id)); exact HF.
       rewrite receive_Accepted. cbn [on_event app_auctions].
       apply lookup_auction_Some in Hf as [Hat _].
       apply (update_mirrors_insert _ _ _ a'); auto using same_static_applied. }
  all: erewrite emitted_app by (cbn; reflexivity); unfold receive; cbn; auto.
  destruct (decide (s = socket_id)); cbn; [|exact HF].
  apply Forall2_refl_rel, shows_refl.
Qed.

Lemma handle_keeps_ids clock t w :
  id <$> auctionItems (exec (handle clock t) w) = id <$> auctionItems w.
Proof.
  apply ids_of_same_static.
  eapply Forall2_impl; [apply handle_grows|]. now intros a a' [? _].
Qed.

Lemma run_mirror clock socket_id ts w app :
  NoDup (id <$> auctionItems w) ->
  Forall2 shows (app_auctions app) (auctionItems w) ->
  Forall2 shows
    (app_auctions (receive socket_id (emitted_by_run clock ts w) app))
    (auctionItems (run clock ts w)).
Proof.
  revert w app. induction ts as [|t ts IH]; intros w app Hnd HF.
  - unfold emitted_by_run. cbn. now rewrite drop_all.
  - rewrite emitted_by_run_cons, receive_app. cbn [run]. apply IH.
    + now rewrite handle_keeps_ids.
    + now apply handle_mirror.
Qed.

Lemma with_bid_histories auctionId currentBid highestBidder (cs : list Auction) :
  bidHistory <$>
    ((fun c => if decide (id c = auctionId)
               then with_bid currentBid highestBidder c else c) <$> cs) =
  bidHistory <$> cs.
Proof.
  rewrite <- list_fmap_compose. apply list_fmap_ext. intros _ c _. cbn.
  now destruct (decide (id c = auctionId)).
Qed.

Lemma handle_keeps_histories clock socket_id t w app :
  t <> Connection socket_id ->
  bidHistory <$> app_auctions (receive socket_id (emitted (handle clock t) w) app) =
  bidHistory <$> app_auctions app.
Proof.
  intros Ht. destruct t as [s|s d| | |].
  2: { cbn [handle]. outcome_cases clock s d w; rewrite He.
       1-3: unfold receive; cbn; destruct (decide (s = socket_id)); reflexivity.
       rewrite receive_Accepted. cbn [on_event app_auctions].
       apply with_bid_histories. }
  all: erewrite emitted_app by (cbn; reflexivity); unfold receive; cbn; auto.
  destruct (decide (s = socket_id)); [congruence|reflexivity].
Qed.

Lemma run_keeps_histories clock socket_id ts w app :
  Forall (fun t => t <> Connection socket_id) ts ->
  bidHistory <$> app_auctions (receive socket_id (emitted_by_run clock ts w) app) =
  bidHistory <$> app_auctions app.
Proof.
  intros Hts. revert w app. induction Hts as [|t ts Ht _ IH]; intros w app.
  - unfold emitted_by_run. cbn. now rewrite drop_all.
  - rewrite emitted_by_run_cons, receive_app, IH. now apply handle_keeps_histories.
Qed.

(** X14.  A client that connects and takes in, in order, everything the
    server sends to it shows the server's store: identifiers being unique,
    after any run its copy of every auction has the server's [currentBid],
    [highestBidder] and unassigned fields.  The histories are another
    matter: unless it connects again, the client keeps those of the
    snapshot it was sent on connecting. *)
Theorem client_mirrors_the_store clock socket_id ts w app :
  NoDup (id <$> auctionItems w) ->
  Forall2 shows
    (app_auctions
       (receive socket_id (emitted_by_run clock (Connection socket_id :: ts) w) app))
    (auctionItems (run clock (Connection socket_id :: ts) w)) /\
  (Forall (fun t => t <> Connection socket_id) ts ->
   bidHistory <$>
     app_auctions
       (receive socket_id (emitted_by_run clock (Connection socket_id :: ts) w) app) =
   bidHistory <$> auctionItems w).
Proof.
  intros Hnd.
  rewrite emitted_by_run_cons, receive_app. cbn [run].
  assert (app_auctions
            (receive socket_id (emitted (handle clock (Connection socket_id)) w) app) =
          auctionItems w) as Hsync.
  { erewrite emitted_app by (cbn; reflexivity). unfold receive. cbn.
    now rewrite decide_True. }
  split.
  - apply run_mirror.
    + now rewrite handle_keeps_ids.
    + rewrite Hsync. cbn. apply Forall2_refl_rel, shows_refl.
  - intros Hts. now rewrite run_keeps_histories, Hsync.
Qed.

Lemma client_mirrors_the_store_witness :
  Forall2 shows
    (app_auctions
       (receive "Qm8z"
          (emitted_by_run ticking
             [Connection "Qm8z"; PlaceBidEvent "Kx3f" (mkPlaceBid 1 160 (Some "A"));
              TimerTick; PlaceBidEvent "Qm8z" (mkPlaceBid 4 85 None)]
             (boot ticking))
          (mkApp (Some "Qm8z") [] 0 "" false)))
    (auctionItems
       (run ticking
          [Connection "Qm8z"; PlaceBidEvent "Kx3f" (mkPlaceBid 1 160 (Some "A"));
           TimerTick; PlaceBidEvent "Qm8z" (mkPlaceBid 4 85 None)]
          (boot ticking))) /\
  bidHistory <$>
    app_auctions
      (receive "Qm8z"
         (emitted_by_run ticking
            [Connection "Qm8z"; PlaceBidEvent "Kx3f" (mkPlaceBid 1 160 (Some "A"));
             TimerTick; PlaceBidEvent "Qm8z" (mkPlaceBid 4 85 None)]
            (boot ticking))
         (mkApp (Some "Qm8z") [] 0 "" false)) =
  [[]; []; []; []].
Proof.
  destruct (client_mirrors_the_store ticking "Qm8z"
              [PlaceBidEvent "Kx3f" (mkPlaceBid 1 160 (Some "A"));
               TimerTick; PlaceBidEvent "Qm8z" (mkPlaceBid 4 85 None)]
              (boot ticking) (mkApp (Some "Qm8z") [] 0 "" false)) as [Hshow Hhist].
  { apply (bool_decide_unpack _). vm_compute. exact I. }
  split; [exact Hshow|]. apply Hhist. repeat constructor; discriminate.
Defined.

(** X15.  The answers sent to the bidder alone change nothing in a
    client: no state of the [App] component depends on ['bid-error'] or
    ['bid-success'].  After a bid that is not accepted every client,
    the bidder's included, is in the state it was in; after an accepted
    bid every client, the bidder's or not, is in the state the broadcast
    alone puts it in. *)
Theorem answers_to_the_bidder_are_ignored clock socket_id data w socket_id2 app :
  (~ accepted clock socket_id data w ->
   receive socket_id2 (emitted (place_bid clock socket_id data) w) app = app) /\
  (accepted clock socket_id data w ->
   exists ref a',
     lookup_auction (auctionId data)
       (auctionItems (exec (place_bid clock socket_id data) w)) = Some (ref, a') /\
     receive socket_id2 (emitted (place_bid clock socket_id data) w) app =
       on_event app
         (auction_update (auctionId data) (currentBid a') (highestBidder a')
            (bidHistory a'))).
Proof.
  split.
  - intros Hna. outcome_cases clock socket_id data w; rewrite He.
    1-3: unfold receive; cbn; destruct (decide (socket_id = socket_id2)); reflexivity.
    destruct Hna. apply accepted_iff. eauto.
  - intros (ref & a & Hlk & Ho & Hk)%accepted_iff.
    destruct (place_bid_accept clock socket_id data w ref a Hlk Ho Hk)
      as (_ & _ & He & Hlk').
    eexists _, _. split; [exact Hlk'|]. rewrite He, receive_Accepted.
    apply lookup_auction_Some in Hlk as [_ <-]. reflexivity.
Qed.

Lemma answers_to_the_bidder_are_ignored_witness :
  receive "Kx3f" (emitted (place_bid ticking "Kx3f" (mkPlaceBid 1 155 (Some "A")))
                    (boot ticking))
    (mkApp (Some "Kx3f") (auctionItems (boot ticking)) 4 "A" true) =
  mkApp (Some "Kx3f") (auctionItems (boot ticking)) 4 "A" true.
Proof.
  apply (proj1 (answers_to_the_bidder_are_ignored ticking "Kx3f"
                  (mkPlaceBid 1 155 (Some "A")) (boot ticking) "Kx3f"
                  (mkApp (Some "Kx3f") (auctionItems (boot ticking)) 4 "A" true))).
  intros [a' Ha']. vm_compute in Ha'. discriminate.
Defined.

(** ** The server time held by a client *)

Lemma handle_server_time clock socket_id t w app :
  (exists k : nat, (k < reads w)%nat /\ app_serverTime app = clock k) ->
  exists k : nat,
    (k < reads (exec (handle clock t) w))%nat /\
    app_serverTime (receive socket_id (emitted (handle clock t) w) app) = clock k.
Proof.
  intros (k & Hk & Hc). destruct t as [s|s d| | |].
  2: { cbn [handle].
       outcome_cases clock s d w; rewrite He, Hn.
       1-3: exists k; split; [lia|];
         unfold receive; cbn; destruct (decide (s = socket_id)); exact Hc.
       exists k. split; [lia|]. rewrite receive_Accepted. exact Hc. }
  all: erewrite emitted_app by (cbn; reflexivity); unfold receive; cbn.
  - destruct (decide (s = socket_id)); cbn; [exists (reads w)|exists k]; split; auto; lia.
  - exists k. split; [lia|exact Hc].
  - exists k. split; [lia|exact Hc].
  - exists (reads w). split; [lia|reflexivity].
Qed.

Lemma run_server_time clock socket_id ts w app :
  (exists k : nat, (k < reads w)%nat /\ app_serverTime app = clock k) ->
  exists k : nat,
    (k < reads (run clock ts w))%nat /\
    app_serverTime (receive socket_id (emitted_by_run clock ts w) app) = clock k.
Proof.
  revert w app. induction ts as [|t ts IH]; intros w app Hk.
  - unfold emitted_by_run. cbn. now rewrite drop_all.
  - rewrite emitted_by_run_cons, receive_app. cbn [run].
    apply IH. now apply handle_server_time.
Qed.

(** X16.  With a clock that never goes back and unique identifiers, a
    card never counts an auction as ended too early.  The server time a
    connected client holds is a reading the server has made; so when the
    countdown computed from it is at zero, every bid that resolves to this
    auction is answered with [AuctionEnded] from then on. *)
Theorem ended_display_is_sound clock socket_id ts w app slot c s socket_id' data :
  monotone clock ->
  NoDup (id <$> auctionItems w) ->
  app_auctions
    (receive socket_id (emitted_by_run clock (Connection socket_id :: ts) w) app)
    !! slot = Some c ->
  lookup_auction (auctionId data)
    (auctionItems (run clock (Connection socket_id :: ts) w)) = Some (slot, s) ->
  isEnded
    (updateTimer c
       (app_serverTime
          (receive socket_id (emitted_by_run clock (Connection socket_id :: ts) w) app)))
    = true ->
  emitted (place_bid clock socket_id' data) (run clock (Connection socket_id :: ts) w) =
    [ToSocket socket_id' (AuctionEnded (auctionId data))].
Proof.
  intros Hm Hnd Hc Hlk Hshown.
  assert (exists k : nat,
            (k < reads (run clock (Connection socket_id :: ts) w))%nat /\
            app_serverTime
              (receive socket_id
                 (emitted_by_run clock (Connection socket_id :: ts) w) app) = clock k)
    as (k & Hk & Htime).
  { rewrite emitted_by_run_cons, receive_app. cbn [run]. apply run_server_time.
    exists (reads w). erewrite emitted_app by (cbn; reflexivity).
    unfold receive. cbn. rewrite decide_True by reflexivity. cbn. split; [lia|reflexivity]. }
  assert (Forall2 shows
            (app_auctions
               (receive socket_id
                  (emitted_by_run clock (Connection socket_id :: ts) w) app))
            (auctionItems (run clock (Connection socket_id :: ts) w))) as HF.
  { rewrite emitted_by_run_cons, receive_app. cbn [run]. apply run_mirror.
    - now rewrite handle_keeps_ids.
    - erewrite emitted_app by (cbn; reflexivity). unfold receive. cbn.
      rewrite decide_True by reflexivity. cbn. apply Forall2_refl_rel, shows_refl. }
  pose proof Hlk as [Hat _]%lookup_auction_Some.
  pose proof (Forall2_lookup_lr _ _ _ _ _ _ HF Hc Hat)
    as ((_ & _ & _ & _ & _ & Hdead) & _ & _).
  rewrite Htime in Hshown. unfold isEnded, updateTimer in Hshown.
  apply Z.leb_le in Hshown.
  assert (clock k <= clock (reads (run clock (Connection socket_id :: ts) w)))
    by (apply Hm; lia).
  outcome_cases clock socket_id' data (run clock (Connection socket_id :: ts) w);
    simplify_eq; try lia. exact He.
Qed.

Lemma ended_display_is_sound_witness :
  emitted (place_bid at_deadline "Kx3f" (mkPlaceBid 1 1000 (Some "A")))
    (run at_deadline [Connection "Qm8z"; TimerTick] (boot at_deadline)) =
  [ToSocket "Kx3f" (AuctionEnded 1)].
Proof.
  apply (ended_display_is_sound at_deadline "Qm8z" [TimerTick] (boot at_deadline)
           (mkApp (Some "Qm8z") [] 0 "" false) 0%nat (vintage_camera at_deadline)
           (vintage_camera at_deadline) "Kx3f" (mkPlaceBid 1 1000 (Some "A"))).
  - intros i j Hij. unfold at_deadline.
    destruct (Nat.ltb_spec i 4), (Nat.ltb_spec j 4); lia.
  - apply (bool_decide_unpack _). vm_compute. exact I.
  - reflexivity.
  - reflexivity.
  - reflexivity.
Defined.

(** * The two embeddings agree *)

Lemma as_js_find auctionId (items : list Auction) :
  list_find (fun item : Js.Auction exact_integers => Js.id item = auctionId)
    (as_js_auction <$> items) =
  prod_map (fun ref => ref) as_js_auction <$>
    list_find (fun item => id item = auctionId) items.
Proof.
  induction items as [|a items IH]; [reflexivity|]. cbn.
  destruct (decide (id a = auctionId)); [reflexivity|].
  rewrite IH. now destruct (list_find _ items) as [[]|].
Qed.

Lemma as_js_handle clock t w :
  as_js_world (exec (handle clock t) w) =
  Js.exec (Js.handle clock (as_js_task t)) (as_js_world w).
Proof.
  destruct t as [s|s d| | |]; try (unfold as_js_world; cbn; now rewrite fmap_app).
  cbn [handle as_js_task Js.handle].
  unfold exec, Js.exec, place_bid, Js.place_bid, bind, Js.bind, find_auction,
    Js.find_auction.
  cbn [as_js_world Js.auctionItems as_js_request Js.auctionId].
  rewrite as_js_find.
  destruct (list_find _ (auctionItems w)) as [[ref a]|]; cbn;
    [|unfold as_js_world; cbn; now rewrite fmap_app].
  destruct (clock (reads w) >=? endTime a); cbn;
    [unfold as_js_world; cbn; now rewrite fmap_app|].
  destruct (bidAmount d <? currentBid a + minimumIncrement a); cbn;
    [unfold as_js_world; cbn; now rewrite fmap_app|].
  unfold as_js_world, Js.push_bidHistory, Js.set_highestBidder, Js.set_currentBid,
    as_js_auction; cbn.
  rewrite !list_fmap_insert, !fmap_app. cbn. rewrite !fmap_app, <- !app_assoc.
  reflexivity.
Qed.

